(** * Cloudways Varnish action: the API client of [src/api.js]

    A shallow embedding of the four functions of [src/api.js]
    ([getAccessToken], [executeVarnishAction], [checkOperationStatus],
    [waitForCompletion] with its private loop [checkOperationUntilComplete])
    and the properties of its response handling and polling loop.

    JavaScript values are an inductive type, the [async] functions are
    programs of a small monad that threads the chronological trace of
    observable events (console lines, timers, HTTP requests) and propagates
    thrown errors, and the remote API is a function from the rank of a
    request and the request to the decoded body. *)

From Equations Require Import Equations.
From Stdlib Require Import ZArith List String Ascii Bool Lia DecimalString DecimalPos.
Import ListNotations.
Open Scope string_scope.
Open Scope Z_scope.
Set Warnings "-register-all".

(** ** JavaScript values *)

(** A JavaScript number, as far as this client meets one: [NaN], or a
    double that holds an integer exactly ([Int z], a safe integer).  The
    arithmetic, the parsing and the printing of [Int z] below are those of
    the double only while [z] is a safe integer, between [-2^53] and
    [2^53]; fractions and the infinities have no value here. *)
Inductive number : Type :=
| NaN
| Int (z : Z).

(** Values: the results of [response.json()] ([Null], [Bool], [Num],
    [Str], [Arr], [Obj]; an object keeps its properties in insertion
    order), [Undefined] for a property that is not there, and [Num NaN]. *)
Inductive value : Type :=
| Undefined
| Null
| Bool (b : bool)
| Num (n : number)
| Str (s : string)
| Arr (items : list value)
| Obj (props : list (string * value)).

(** ToBoolean: [undefined], [null], [false], [0], [NaN] and the empty string
    are falsy; every object and array is truthy. *)
Definition truthy (v : value) : bool :=
  match v with
  | Undefined | Null => false
  | Bool b => b
  | Num NaN => false
  | Num (Int z) => negb (z =? 0)
  | Str s => negb (s =? "")%string
  | Arr _ | Obj _ => true
  end.

(** [a || b] *)
Definition js_or (a b : value) : value := if truthy a then a else b.

(** [v === true] and [v === false] *)
Definition strict_eq_bool (v : value) (b : bool) : bool :=
  match v with
  | Bool c => Bool.eqb c b
  | _ => false
  end.

(** ** Strings *)

Definition dquote : string := String "034"%char EmptyString.

Fixpoint join (sep : string) (parts : list string) : string :=
  match parts with
  | [] => ""
  | [p] => p
  | p :: rest => p ++ sep ++ join sep rest
  end.

(** Number::toString on a safe integer: the decimal digits.  (A double
    past [2^53] prints rounded, and from [1e21] on in exponent form.) *)
Definition Z_to_string (z : Z) : string := NilZero.string_of_int (Z.to_int z).

Definition number_to_string (n : number) : string :=
  match n with
  | NaN => "NaN"
  | Int z => Z_to_string z
  end.

Definition hex_digit (n : N) : ascii :=
  ascii_of_N (if (n <? 10)%N then 48 + n else 87 + n).

(** QuoteJSONString, one code unit at a time. *)
Definition json_escape_char (c : ascii) : string :=
  let n := N_of_ascii c in
  if (n =? 34)%N then "\" ++ dquote
  else if (n =? 92)%N then "\\"
  else if (n =? 8)%N then "\b"
  else if (n =? 9)%N then "\t"
  else if (n =? 10)%N then "\n"
  else if (n =? 12)%N then "\f"
  else if (n =? 13)%N then "\r"
  else if (n <? 32)%N then
    "\u00" ++ String (hex_digit (n / 16)) (String (hex_digit (n mod 16)) "")
  else String c "".

Fixpoint json_escape (s : string) : string :=
  match s with
  | EmptyString => ""
  | String c r => json_escape_char c ++ json_escape r
  end.

Definition json_quote (s : string) : string := dquote ++ json_escape s ++ dquote.

(** [JSON.stringify(v)]: [None] is JavaScript's [undefined] result.  [NaN]
    prints as [null]; an [undefined] array item prints as [null], an
    [undefined] property is left out. *)
Fixpoint JSON_stringify (v : value) : option string :=
  match v with
  | Undefined => None
  | Null => Some "null"
  | Bool true => Some "true"
  | Bool false => Some "false"
  | Num NaN => Some "null"
  | Num (Int z) => Some (Z_to_string z)
  | Str s => Some (json_quote s)
  | Arr items =>
      Some ("[" ++ join "," ((fix each (l : list value) : list string :=
                                match l with
                                | [] => []
                                | x :: r =>
                                    match JSON_stringify x with
                                    | Some t => t
                                    | None => "null"
                                    end :: each r
                                end) items) ++ "]")
  | Obj props =>
      Some ("{" ++ join "," ((fix each (l : list (string * value)) : list string :=
                                match l with
                                | [] => []
                                | (k, x) :: r =>
                                    match JSON_stringify x with
                                    | Some t => (json_quote k ++ ":" ++ t) :: each r
                                    | None => each r
                                    end
                                end) props) ++ "}")
  end.

(** [`${JSON.stringify(v)}`] *)
Definition stringified (v : value) : string :=
  match JSON_stringify v with
  | Some t => t
  | None => "undefined"
  end.

(** ** [parseInt(s, 10)] *)

(** Strings are byte strings in UTF-8.  [white_space_1], [white_space_2] and
    [white_space_3] recognise the WhiteSpace and LineTerminator code points
    of one, two and three bytes that [parseInt] skips. *)
Definition white_space_1 (a : ascii) : bool :=
  let n := N_of_ascii a in
  ((9 <=? n) && (n <=? 13) || (n =? 32))%N.

Definition white_space_2 (a b : ascii) : bool :=
  ((N_of_ascii a =? 194) && (N_of_ascii b =? 160))%N.

Definition white_space_3 (a b c : ascii) : bool :=
  let x := N_of_ascii a in
  let y := N_of_ascii b in
  let z := N_of_ascii c in
  ((x =? 225) && (y =? 154) && (z =? 128)
   || (x =? 226) && (y =? 128)
      && ((128 <=? z) && (z <=? 138) || (z =? 168) || (z =? 169) || (z =? 175))
   || (x =? 226) && (y =? 129) && (z =? 159)
   || (x =? 227) && (y =? 128) && (z =? 128)
   || (x =? 239) && (y =? 187) && (z =? 191))%N.

Fixpoint trim_start (s : string) : string :=
  match s with
  | EmptyString => s
  | String a r1 =>
      if white_space_1 a then trim_start r1
      else
        match r1 with
        | EmptyString => s
        | String b r2 =>
            if white_space_2 a b then trim_start r2
            else
              match r2 with
              | EmptyString => s
              | String c r3 => if white_space_3 a b c then trim_start r3 else s
              end
        end
  end.

Definition is_digit (a : ascii) : bool :=
  let n := N_of_ascii a in ((48 <=? n) && (n <=? 57))%N.

Definition digit_value (a : ascii) : Z := Z.of_N (N_of_ascii a) - 48.

(** The value of the longest prefix of decimal digits, [None] when the
    string does not start with a digit; [acc] is the value read so far. *)
Fixpoint leading_digits (acc : option Z) (s : string) : option Z :=
  match s with
  | EmptyString => acc
  | String a r =>
      if is_digit a then
        leading_digits (Some (10 * match acc with Some n => n | None => 0 end
                              + digit_value a)) r
      else acc
  end.

(** An optional sign: [-1] for a leading minus, and the rest of the string. *)
Definition strip_sign (t : string) : Z * string :=
  match t with
  | EmptyString => (1, t)
  | String a r =>
      if (a =? "-")%char then (-1, r)
      else if (a =? "+")%char then (1, r)
      else (1, t)
  end.

(** [parseInt(s, 10)]: skip leading white space, read an optional sign,
    then the longest run of decimal digits; [NaN] when there is none.  The
    integer read is the mathematical one: it is the code's number while it
    is a safe integer (a longer run of digits is rounded to a double, and
    to [Infinity] from some 309 digits on). *)
Definition parseInt (s : string) : number :=
  let (sign, digits) := strip_sign (trim_start s) in
  match leading_digits None digits with
  | None => NaN
  | Some n => Int (sign * n)
  end.

(** ** Errors, events and the monad of [async] functions *)

(** What a [throw] or a rejected promise carries.  [api.js] itself only
    throws [Error]; [TypeError] is the runtime's, on a property read from
    [null] or [undefined] and on a failed [fetch]; [SyntaxError] is
    [response.json()]'s on a body that is not JSON. *)
Inductive exn : Type :=
| Error (message : string)
| TypeError (message : string)
| SyntaxError (message : string).

Inductive outcome (A : Type) : Type :=
| Return (a : A)
| Throw (e : exn).
Arguments Return {A} a.
Arguments Throw {A} e.

Record request : Type := mkRequest {
  url : string;
  method : string;
  headers : list (string * string);
  body : option string
}.

(** Observable events, in the order they happen. *)
Inductive event : Type :=
| ConsoleLog (line : string)
| StdoutWrite (text : string)
| Sleep (ms : Z)
| Fetch (req : request).

(** The remote API: what the [n]-th request of a run (counting from 0)
    yields once [fetch] and [response.json()] have settled. *)
Definition network : Type := nat -> request -> outcome value.

Definition is_fetch (e : event) : bool :=
  match e with
  | Fetch _ => true
  | _ => false
  end.

Definition fetch_count (tr : list event) : nat := List.length (filter is_fetch tr).

Definition M (A : Type) : Type := network -> list event -> outcome A * list event.

Definition ret {A} (a : A) : M A := fun _ tr => (Return a, tr).

Definition throw {A} (e : exn) : M A := fun _ tr => (Throw e, tr).

Definition bind {A B} (m : M A) (k : A -> M B) : M B :=
  fun net tr =>
    match m net tr with
    | (Return a, tr') => k a net tr'
    | (Throw e, tr') => (Throw e, tr')
    end.

Notation "x <- m ;; k" := (bind m (fun x => k))
  (at level 61, m at next level, right associativity).
Notation "m ;; k" := (bind m (fun _ => k))
  (at level 61, right associativity).

Definition emit (e : event) : M unit := fun _ tr => (Return tt, (tr ++ [e])%list).

Definition lift {A} (o : outcome A) : M A := fun _ tr => (o, tr).

Definition console_log (line : string) : M unit := emit (ConsoleLog line).
Definition stdout_write (text : string) : M unit := emit (StdoutWrite text).

(** [await sleep(ms)] *)
Definition sleep (ms : Z) : M unit := emit (Sleep ms).

(** [await (await fetch(url, options)).json()] *)
Definition fetch_json (req : request) : M value :=
  fun net tr => (net (fetch_count tr) req, (tr ++ [Fetch req])%list).

(** A run from the empty trace. *)
Definition run {A} (m : M A) (net : network) : outcome A * list event := m net [].

(** ** Property reads *)

(** The properties [api.js] reads. None of them is a property that strings,
    numbers, booleans or arrays have of their own. *)
Inductive prop : Type :=
| access_token
| status
| message
| operation
| is_completed.

Definition prop_name (p : prop) : string :=
  match p with
  | access_token => "access_token"
  | status => "status"
  | message => "message"
  | operation => "operation"
  | is_completed => "is_completed"
  end.

Fixpoint lookup (k : string) (props : list (string * value)) : value :=
  match props with
  | [] => Undefined
  | (k', v) :: rest => if (k =? k')%string then v else lookup k rest
  end.

(** [v.p]: a [TypeError] on [null] and [undefined], the property of an
    object, [undefined] on anything else. *)
Definition get (v : value) (p : prop) : outcome value :=
  match v with
  | Undefined =>
      Throw (TypeError ("Cannot read properties of undefined (reading '"
                          ++ prop_name p ++ "')"))
  | Null =>
      Throw (TypeError ("Cannot read properties of null (reading '"
                          ++ prop_name p ++ "')"))
  | Obj props => Return (lookup (prop_name p) props)
  | _ => Return Undefined
  end.

(** ** Conversion to a string *)

(** Whether an object has a property of this name of its own. *)
Definition has_own (k : string) (props : list (string * value)) : bool :=
  existsb (fun kv => (fst kv =? k)%string) props.

(** ToString, as a template literal [`${v}`] applies it.  An array joins
    its items with commas, [null] and [undefined] items as the empty
    string.  An object decoded from JSON prints as [[object Object]]
    through [Object.prototype.toString], unless it has a [toString]
    property of its own: that value is not a function, [valueOf] gives no
    primitive either, and the conversion throws. *)
Fixpoint to_string (v : value) : outcome string :=
  match v with
  | Undefined => Return "undefined"
  | Null => Return "null"
  | Bool true => Return "true"
  | Bool false => Return "false"
  | Num n => Return (number_to_string n)
  | Str s => Return s
  | Arr items =>
      match
        (fix each (l : list value) : outcome (list string) :=
           match l with
           | [] => Return []
           | x :: r =>
               match
                 match x with
                 | Undefined | Null => Return ""
                 | _ => to_string x
                 end
               with
               | Throw e => Throw e
               | Return t =>
                   match each r with
                   | Throw e => Throw e
                   | Return ts => Return (t :: ts)
                   end
               end
           end) items
      with
      | Throw e => Throw e
      | Return parts => Return (join "," parts)
      end
  | Obj props =>
      if has_own "toString" props then
        Throw (TypeError "Cannot convert object to primitive value")
      else Return "[object Object]"
  end.

(** ** The functions of [api.js] *)

Definition API_BASE : string := "https://api.cloudways.com/api/v1".

Definition token_request (email apiKey : string) : request :=
  {| url := API_BASE ++ "/oauth/access_token";
     method := "POST";
     headers := [("Content-Type", "application/json")];
     body := Some (stringified (Obj [("email", Str email); ("api_key", Str apiKey)])) |}.

Definition getAccessToken (email apiKey : string) : M value :=
  console_log "[API] Obtaining OAuth access token..." ;;
  data <- fetch_json (token_request email apiKey) ;;
  token <- lift (get data access_token) ;;
  if negb (truthy token) then
    throw (Error ("Failed to obtain access token: " ++ stringified data))
  else
    console_log "✅ [API] Access token obtained" ;;
    ret token.

(** The object built at lines 44-48. *)
Definition payload (serverId action : string) : value :=
  let serverIdInt := parseInt serverId in
  Obj [("server_id", Num serverIdInt); ("action", Str action)].

Definition varnish_request (token serverId action : string) : request :=
  {| url := API_BASE ++ "/service/varnish";
     method := "POST";
     headers := [("Authorization", "Bearer " ++ token);
                 ("Content-Type", "application/json")];
     body := Some (stringified (payload serverId action)) |}.

Definition executeVarnishAction (token serverId action : string) : M value :=
  console_log ("[API] Executing Varnish " ++ action ++ " on server " ++ serverId ++ "...") ;;
  data <- fetch_json (varnish_request token serverId action) ;;
  console_log ("[API] Response: " ++ stringified data) ;;
  st <- lift (get data status) ;;
  if strict_eq_bool st false then
    msg <- lift (get data message) ;;
    let errorMsg := js_or msg (Str "Unknown error") in
    text <- lift (to_string errorMsg) ;;
    throw (Error ("Operation failed: " ++ text))
  else if strict_eq_bool st true then
    console_log ("✅ [API] Varnish " ++ action ++ " completed successfully") ;;
    ret (Obj [("completed", Bool true)])
  else
    throw (Error ("Unexpected response: " ++ stringified data)).

Definition status_request (token operationId : string) : request :=
  {| url := API_BASE ++ "/operation/" ++ operationId;
     method := "GET";
     headers := [("Authorization", "Bearer " ++ token)];
     body := None |}.

Definition checkOperationStatus (token operationId : string) : M value :=
  fetch_json (status_request token operationId).

(** Lines 146-151: [Some op] when the status carries a truthy [operation]
    whose [is_completed] is truthy, the early [return status.operation]. *)
Definition completed_operation (st : value) : outcome (option value) :=
  match get st operation with
  | Throw e => Throw e
  | Return op =>
      if truthy op then
        match get op is_completed with
        | Throw e => Throw e
        | Return c => Return (if truthy c then Some op else None)
        end
      else Return None
  end.

(** Remembers which branch of a test was taken. *)
Definition inspect {A} (a : A) : {b : A | a = b} := exist _ a eq_refl.

(** The private loop.  Its only caller, [waitForCompletion], starts it at
    attempt 1 with truthy numbers for [maxAttempts] and [interval], so the
    three are integers here; the recursion stops because [attempt] grows
    towards [maxAttempts + 1]. *)
Equations? checkOperationUntilComplete
    (token operationId : string) (attempt maxAttempts interval : Z) : M value
    by wf (Z.to_nat (maxAttempts + 1 - attempt)) lt :=
  checkOperationUntilComplete token operationId attempt maxAttempts interval
    with inspect (attempt >? maxAttempts) := {
    | exist _ true _ =>
        console_log "" ;;
        let errorMsg := "Operation timed out after " ++ Z_to_string maxAttempts
                          ++ " attempts (ID: " ++ operationId ++ ")" in
        throw (Error errorMsg)
    | exist _ false _ =>
        sleep interval ;;
        st <- checkOperationStatus token operationId ;;
        done <- lift (completed_operation st) ;;
        match done with
        | Some op =>
            console_log "✅ [API] Operation completed successfully" ;;
            ret op
        | None =>
            stdout_write "." ;;
            checkOperationUntilComplete token operationId (attempt + 1) maxAttempts interval
        end }.
Proof. lia. Qed.

(** An optional numeric argument ([@param {number} [maxAttempts=30]]):
    left out ([undefined]), [null], or a number, that is [NaN] or an
    integer: a count of attempts or of milliseconds.  (A fractional budget
    or [Infinity] has no value here.) *)
Inductive numarg : Type :=
| Omitted
| NullArg
| Given (n : number).

Definition numarg_value (a : numarg) : value :=
  match a with
  | Omitted => Undefined
  | NullArg => Null
  | Given n => Num n
  end.

(** [a || d] for an optional numeric argument [a] and a numeric default
    [d]: a truthy number is never [NaN], so the result is an integer. *)
Definition or_default (a : numarg) (d : Z) : Z :=
  match a with
  | Given (Int z) => if truthy (Num (Int z)) then z else d
  | _ => d
  end.

Definition waitForCompletion (token operationId : string) (maxAttempts interval : numarg)
  : M value :=
  let maxWait := or_default maxAttempts 30 in
  let waitInterval := or_default interval 5000 in
  console_log "[API] Waiting for operation to complete..." ;;
  checkOperationUntilComplete token operationId 1 maxWait waitInterval.

(** ** The error kinds of the specification

    [api.js] throws plain [Error]s; the kind is the fixed text its message
    starts with (lines 22, 68, 78 and 138). *)

Definition AuthenticationError (raw_body : string) : exn :=
  Error ("Failed to obtain access token: " ++ raw_body).

Definition OperationError (provider_message : string) : exn :=
  Error ("Operation failed: " ++ provider_message).

Definition UnexpectedResponseError (raw_body : string) : exn :=
  Error ("Unexpected response: " ++ raw_body).

Definition TimeoutError (maxAttempts : Z) (operationId : string) : exn :=
  Error ("Operation timed out after " ++ Z_to_string maxAttempts
           ++ " attempts (ID: " ++ operationId ++ ")").

(** ** Vocabulary of the specification *)

(** The field [p] of a response as the specification speaks of it:
    [Undefined] when the response has no such field, whatever its shape. *)
Definition field (response : value) (p : prop) : value :=
  match response with
  | Obj props => lookup (prop_name p) props
  | _ => Undefined
  end.

(** Whether the response is an object that has the field. *)
Definition has_field (response : value) (p : prop) : bool :=
  match response with
  | Obj props => existsb (fun kv => (fst kv =? prop_name p)%string) props
  | _ => false
  end.

Definition nullish (v : value) : bool :=
  match v with
  | Undefined | Null => true
  | _ => false
  end.

(** The message the specification gives an [OperationError]: the
    response's [message] field, an optional string, if present, else the
    literal. *)
Definition spec_operation_message (response : value) : string :=
  match field response message with
  | Str s => s
  | _ => "Unknown error"
  end.

(** The error of a template literal on an object it cannot convert. *)
Definition conversion_error : exn :=
  TypeError "Cannot convert object to primitive value".

(** What line 68 throws for the value of [errorMsg]: the operation error
    with the value as text, or the error of the conversion. *)
Definition operation_failure (errorMsg : value) : exn :=
  match to_string errorMsg with
  | Return text => OperationError text
  | Throw e => e
  end.

(** The status body of an operation that is still running. *)
Definition not_completed : value :=
  Obj [("operation", Obj [("is_completed", Bool false)])].

(** A serverId with no integer to read: after leading white space and an
    optional sign it does not start with a decimal digit. *)
Definition non_numeric (serverId : string) : bool :=
  match snd (strip_sign (trim_start serverId)) with
  | String a _ => negb (is_digit a)
  | EmptyString => true
  end.

Fixpoint has_digit (s : string) : bool :=
  match s with
  | EmptyString => false
  | String a r => is_digit a || has_digit r
  end.

(** One unsuccessful polling cycle, and [n] of them in a row. *)
Definition cycle (interval : Z) (req : request) : list event :=
  [Sleep interval; Fetch req; StdoutWrite "."].

Fixpoint cycles (n : nat) (interval : Z) (req : request) : list event :=
  match n with
  | O => []
  | S n' => (cycle interval req ++ cycles n' interval req)%list
  end.

(** What the loop makes of a reply of the status endpoint. *)
Definition observe (reply : outcome value) : outcome (option value) :=
  match reply with
  | Return st => completed_operation st
  | Throw e => Throw e
  end.

(** The network [net] with the reply to its [n]-th request replaced. *)
Definition override (net : network) (n : nat) (reply : outcome value) : network :=
  fun j req => if Nat.eqb j n then reply else net j req.

(** ** Some networks *)

(** An endpoint with one fixed reply. *)
Definition replies (data : value) : network := fun _ _ => Return data.

(** A status endpoint on which the operation never completes. *)
Definition never_completes : network := fun _ _ => Return not_completed.

(** A status endpoint that reports a running operation once and a
    completed one from then on. *)
Definition completes_on_second : network :=
  fun n _ =>
    match n with
    | O => Return not_completed
    | _ => Return (Obj [("operation",
                         Obj [("is_completed", Bool true); ("message", Str "done")])])
    end.

(** ** Vocabulary of the polling traces and of decimal strings *)

(** How a polling run that starts on the trace [tr0] with room for
    [budget] attempts can end after [j] unsuccessful cycles: out of budget,
    on a reply read as completed, or on a reply (or a failed request) that
    throws. *)
Inductive poll_end (net : network) (token operationId : string)
    (maxAttempts interval : Z) (budget : nat) (tr0 : list event) (j : nat)
  : outcome value * list event -> Prop :=
| end_timeout :
    j = budget ->
    poll_end net token operationId maxAttempts interval budget tr0 j
      (Throw (TimeoutError maxAttempts operationId),
       (tr0 ++ cycles j interval (status_request token operationId)
            ++ [ConsoleLog ""])%list)
| end_completed (op : value) :
    (j < budget)%nat ->
    observe (net (fetch_count tr0 + j)%nat (status_request token operationId))
    = Return (Some op) ->
    poll_end net token operationId maxAttempts interval budget tr0 j
      (Return op,
       (tr0 ++ cycles j interval (status_request token operationId)
            ++ [Sleep interval; Fetch (status_request token operationId);
                ConsoleLog "✅ [API] Operation completed successfully"])%list)
| end_thrown (e : exn) :
    (j < budget)%nat ->
    observe (net (fetch_count tr0 + j)%nat (status_request token operationId))
    = Throw e ->
    poll_end net token operationId maxAttempts interval budget tr0 j
      (Throw e,
       (tr0 ++ cycles j interval (status_request token operationId)
            ++ [Sleep interval; Fetch (status_request token operationId)])%list).

(** The integer a decimal numeral denotes, read digit by digit from the
    value [acc] of the digits before it. *)
Fixpoint uint_value (d : Decimal.uint) (acc : Z) : Z :=
  match d with
  | Decimal.Nil => acc
  | Decimal.D0 l => uint_value l (10 * acc + 0)
  | Decimal.D1 l => uint_value l (10 * acc + 1)
  | Decimal.D2 l => uint_value l (10 * acc + 2)
  | Decimal.D3 l => uint_value l (10 * acc + 3)
  | Decimal.D4 l => uint_value l (10 * acc + 4)
  | Decimal.D5 l => uint_value l (10 * acc + 5)
  | Decimal.D6 l => uint_value l (10 * acc + 6)
  | Decimal.D7 l => uint_value l (10 * acc + 7)
  | Decimal.D8 l => uint_value l (10 * acc + 8)
  | Decimal.D9 l => uint_value l (10 * acc + 9)
  end.

Definition starts_with_digit (s : string) : bool :=
  match s with
  | String a _ => is_digit a
  | EmptyString => false
  end.

(** Strings of ASCII white space: tabs, line breaks, spaces. *)
Fixpoint ascii_white_space (s : string) : bool :=
  match s with
  | EmptyString => true
  | String a r => white_space_1 a && ascii_white_space r
  end.

(** A status endpoint on which the operation runs once and the next
    request fails. *)
Definition fails_on_second : network :=
  fun n _ =>
    match n with
    | O => Return not_completed
    | _ => Throw (TypeError "fetch failed")
    end.

Definition is_console_log (e : event) : bool :=
  match e with
  | ConsoleLog _ => true
  | _ => false
  end.

(** The integers a double holds exactly, [Number.isSafeInteger]. *)
Definition safe_integer (z : Z) : Prop := - 2 ^ 53 < z < 2 ^ 53.

(** The numbers a conversion to a string would print, the value itself or
    the items of an array, are safe integers. *)
Fixpoint safe_numbers (v : value) : Prop :=
  match v with
  | Num (Int z) => safe_integer z
  | Arr items =>
      (fix all (l : list value) : Prop :=
         match l with
         | [] => True
         | x :: r => safe_numbers x /\ all r
         end) items
  | _ => True
  end.

Fixpoint all_digits (s : string) : bool :=
  match s with
  | EmptyString => true
  | String a r => is_digit a && all_digits r
  end.

(** A serverId that is a decimal integer and nothing else: an optional
    sign and one digit or more. *)
Definition decimal_integer (s : string) : bool :=
  match snd (strip_sign s) with
  | EmptyString => false
  | digits => all_digits digits
  end.

(** * Properties *)

(** ** The string functions on examples *)

Example stringify_ex :
  stringified (Obj [("status", Str "pending"); ("n", Num (Int (-12))); ("l", Arr [Null; Bool true])])
  = "{" ++ dquote ++ "status" ++ dquote ++ ":" ++ dquote ++ "pending" ++ dquote ++ ","
        ++ dquote ++ "n" ++ dquote ++ ":-12,"
        ++ dquote ++ "l" ++ dquote ++ ":[null,true]}".
Proof. reflexivity. Qed.

Example Z_to_string_ex : Z_to_string 0 = "0" /\ Z_to_string 30 = "30" /\ Z_to_string (-7) = "-7".
Proof. repeat split. Qed.

Example parseInt_ex :
  parseInt "  42" = Int 42 /\ parseInt "-7px" = Int (-7) /\ parseInt "+015" = Int 15
  /\ parseInt "abc" = NaN /\ parseInt "" = NaN /\ parseInt "- 3" = NaN
  /\ parseInt "x12" = NaN.
Proof. repeat split. Qed.


(** ** Running the monad *)

Ltac run_monad :=
  unfold run, checkOperationStatus, console_log, stdout_write, sleep;
  unfold bind, emit, fetch_json, lift, ret, throw; cbn beta iota.

Lemma fetch_count_app (tr tr' : list event) :
  fetch_count (tr ++ tr') = (fetch_count tr + fetch_count tr')%nat.
Proof. unfold fetch_count. now rewrite filter_app, length_app. Qed.

Lemma fetch_count_sleep (tr : list event) (ms : Z) :
  fetch_count (tr ++ [Sleep ms]) = fetch_count tr.
Proof. rewrite fetch_count_app. cbn. lia. Qed.

Lemma fetch_count_cycle (tr : list event) (interval : Z) (req : request) :
  fetch_count (tr ++ cycle interval req) = S (fetch_count tr).
Proof. rewrite fetch_count_app. cbn. lia. Qed.

Lemma fetch_count_cycles (n : nat) (interval : Z) (req : request) :
  fetch_count (cycles n interval req) = n.
Proof.
  induction n as [|n IH]; [reflexivity|].
  cbn [cycles]. rewrite fetch_count_app, IH. reflexivity.
Qed.

(** ** The polling loop, one cycle at a time *)

Section Polling.

Variables (net : network) (token operationId : string) (maxAttempts interval : Z).

Let req := status_request token operationId.
Let poll (attempt : Z) := checkOperationUntilComplete token operationId attempt maxAttempts interval.

(** The body of [checkOperationUntilComplete], with its test spelled out. *)
Lemma checkOperationUntilComplete_body (attempt : Z) :
  poll attempt =
  if attempt >? maxAttempts then
    console_log "" ;; throw (TimeoutError maxAttempts operationId)
  else
    sleep interval ;;
    st <- checkOperationStatus token operationId ;;
    done <- lift (completed_operation st) ;;
    match done with
    | Some op => console_log "✅ [API] Operation completed successfully" ;; ret op
    | None => stdout_write "." ;; poll (attempt + 1)
    end.
Proof.
  unfold poll. rewrite checkOperationUntilComplete_equation_1.
  enough (H : forall b (e : (attempt >? maxAttempts) = b),
             checkOperationUntilComplete_unfold_clause_1 token operationId attempt
               maxAttempts (exist _ b e) interval
             = if b then _ else _) by apply H.
  intros [] e; simp checkOperationUntilComplete; reflexivity.
Qed.

(** The timeout test comes first: past the budget nothing is awaited and
    nothing is fetched. *)
Lemma poll_timeout (attempt : Z) (tr : list event) :
  attempt > maxAttempts ->
  poll attempt net tr
  = (Throw (TimeoutError maxAttempts operationId), (tr ++ [ConsoleLog ""])%list).
Proof.
  intros H. rewrite checkOperationUntilComplete_body.
  replace (attempt >? maxAttempts) with true by (symmetry; apply Z.gtb_lt; lia).
  reflexivity.
Qed.

(** Within the budget a cycle sleeps, fetches, and goes by what
    [completed_operation] makes of the reply. *)
Lemma poll_cycle (attempt : Z) (tr : list event) :
  attempt <= maxAttempts ->
  poll attempt net tr
  = match observe (net (fetch_count tr) req) with
    | Return (Some op) =>
        (Return op,
         (tr ++ [Sleep interval; Fetch req;
                 ConsoleLog "✅ [API] Operation completed successfully"])%list)
    | Return None => poll (attempt + 1) net (tr ++ cycle interval req)%list
    | Throw e => (Throw e, (tr ++ [Sleep interval; Fetch req])%list)
    end.
Proof.
  intros H. rewrite checkOperationUntilComplete_body.
  replace (attempt >? maxAttempts) with false by (rewrite Z.gtb_ltb; symmetry; apply Z.ltb_ge; lia).
  run_monad. rewrite fetch_count_sleep. fold req.
  unfold observe, cycle.
  destruct (net (fetch_count tr) req) as [st|e]; cbn.
  - destruct (completed_operation st) as [[op|]|e]; cbn;
      rewrite <- !app_assoc; reflexivity.
  - rewrite <- !app_assoc; reflexivity.
Qed.

(** [n] cycles that each see a running operation use up a budget of [n]. *)
Lemma poll_exhausts (n : nat) :
  forall (attempt : Z) (tr : list event),
    attempt + Z.of_nat n = maxAttempts + 1 ->
    (forall j, (j < n)%nat -> observe (net (fetch_count tr + j)%nat req) = Return None) ->
    poll attempt net tr
    = (Throw (TimeoutError maxAttempts operationId),
       (tr ++ cycles n interval req ++ [ConsoleLog ""])%list).
Proof.
  induction n as [|n IH]; intros attempt tr Hn Hpend.
  - apply poll_timeout. lia.
  - rewrite poll_cycle by lia.
    specialize (Hpend O) as H0. rewrite Nat.add_0_r in H0. rewrite H0 by lia.
    rewrite IH.
    + cbn [cycles]. now rewrite <- !app_assoc.
    + lia.
    + intros j Hj. rewrite fetch_count_cycle.
      replace (S (fetch_count tr) + j)%nat with (fetch_count tr + S j)%nat by lia.
      apply Hpend. lia.
Qed.

(** [k] cycles that see a running operation, then one that sees it
    completed: the loop returns there. *)
Lemma poll_completes (k : nat) (op : value) :
  forall (attempt : Z) (tr : list event),
    attempt + Z.of_nat k <= maxAttempts ->
    (forall j, (j < k)%nat -> observe (net (fetch_count tr + j)%nat req) = Return None) ->
    observe (net (fetch_count tr + k)%nat req) = Return (Some op) ->
    poll attempt net tr
    = (Return op,
       (tr ++ cycles k interval req
           ++ [Sleep interval; Fetch req;
               ConsoleLog "✅ [API] Operation completed successfully"])%list).
Proof.
  induction k as [|k IH]; intros attempt tr Hk Hpend Hdone.
  - rewrite poll_cycle by lia. rewrite Nat.add_0_r in Hdone. now rewrite Hdone.
  - rewrite poll_cycle by lia.
    specialize (Hpend O) as H0. rewrite Nat.add_0_r in H0. rewrite H0 by lia.
    rewrite IH.
    + cbn [cycles]. now rewrite <- !app_assoc.
    + lia.
    + intros j Hj. rewrite fetch_count_cycle.
      replace (S (fetch_count tr) + j)%nat with (fetch_count tr + S j)%nat by lia.
      apply Hpend. lia.
    + rewrite fetch_count_cycle.
      replace (S (fetch_count tr) + k)%nat with (fetch_count tr + S k)%nat by lia.
      exact Hdone.
Qed.

End Polling.

(** Two networks whose replies the loop reads alike drive it alike. *)
Lemma poll_observe_ext (net1 net2 : network) (token operationId : string)
    (maxAttempts interval : Z) :
  (forall j, observe (net1 j (status_request token operationId))
             = observe (net2 j (status_request token operationId))) ->
  forall (n : nat) (attempt : Z) (tr : list event),
    Z.to_nat (maxAttempts + 1 - attempt) = n ->
    checkOperationUntilComplete token operationId attempt maxAttempts interval net1 tr
    = checkOperationUntilComplete token operationId attempt maxAttempts interval net2 tr.
Proof.
  intros Hobs n. induction n as [|n IH]; intros attempt tr Hn.
  - rewrite (poll_timeout net1), (poll_timeout net2) by lia. reflexivity.
  - rewrite (poll_cycle net1 _ _ _ _ attempt), (poll_cycle net2 _ _ _ _ attempt) by lia.
    rewrite Hobs.
    destruct (observe (net2 _ _)) as [[op|]|e]; try reflexivity.
    apply IH. lia.
Qed.

(** ** Reading a response *)

Lemma get_field (v : value) (p : prop) :
  nullish v = false -> get v p = Return (field v p).
Proof. destruct v; cbn; intros H; try discriminate H; reflexivity. Qed.

Lemma field_not_nullish (v : value) (p : prop) :
  truthy (field v p) = true -> nullish v = false.
Proof. destruct v; cbn; intros H; try discriminate H; reflexivity. Qed.

Lemma truthy_not_nullish (v : value) : truthy v = true -> nullish v = false.
Proof. destruct v; cbn; intros H; try discriminate H; reflexivity. Qed.

(** Lines 146-151 in the words of the specification: on a body other
    than [null] the loop ends exactly when the [is_completed] of the
    [operation] is truthy, and then with that [operation]. *)
Lemma completed_operation_field (st : value) :
  nullish st = false ->
  completed_operation st
  = Return (if truthy (field (field st operation) is_completed)
            then Some (field st operation) else None).
Proof.
  intros Hn. unfold completed_operation. rewrite (get_field _ _ Hn).
  destruct (truthy (field st operation)) eqn:Hop.
  - now rewrite (get_field _ _ (truthy_not_nullish _ Hop)).
  - destruct (field st operation) as [| |b|n|s|items|props];
      try reflexivity; discriminate Hop.
Qed.

Lemma completed_operation_missing (st : value) :
  nullish st = false -> field st operation = Undefined ->
  completed_operation st = Return None.
Proof.
  intros Hn Hf. rewrite (completed_operation_field st Hn), Hf. reflexivity.
Qed.

Lemma completed_operation_done (st : value) :
  truthy (field (field st operation) is_completed) = true ->
  completed_operation st = Return (Some (field st operation)).
Proof.
  intros H.
  assert (Hst : nullish st = false).
  { destruct st; try reflexivity; discriminate H. }
  now rewrite (completed_operation_field st Hst), H.
Qed.

Lemma completed_operation_not_completed : completed_operation not_completed = Return None.
Proof. reflexivity. Qed.

Lemma or_default_falsy (a : numarg) (d : Z) :
  truthy (numarg_value a) = false -> or_default a d = d.
Proof.
  destruct a as [| |[|z]]; cbn; try reflexivity.
  intros H. now rewrite H.
Qed.

(** [or_default] is [||] on the values of optional numeric arguments. *)
Lemma or_default_js_or (a : numarg) (d : Z) :
  Num (Int (or_default a d)) = js_or (numarg_value a) (Num (Int d)).
Proof.
  destruct a as [| |[|z]]; try reflexivity.
  unfold js_or, or_default, numarg_value. now destruct (truthy (Num (Int z))).
Qed.

(** ** The completion waiter *)

(** C1: with [maxAttempts = 3] and a status endpoint that answers
    [{operation: {is_completed: false}}] to the three requests it gets,
    [waitForCompletion] fails with the timeout error after exactly three
    status fetches, each after a sleep of the interval; the message names
    the attempt count and the operation id; and the timeout test comes
    before each cycle: past the budget the loop throws without sleeping or
    fetching. *)
Theorem waitForCompletion_times_out_after_3_attempts
    (net : network) (token operationId : string) (interval : numarg) :
  (forall n, (n < 3)%nat ->
             net n (status_request token operationId) = Return not_completed) ->
  run (waitForCompletion token operationId (Given (Int 3)) interval) net
  = (Throw (TimeoutError 3 operationId),
     (ConsoleLog "[API] Waiting for operation to complete..."
        :: cycles 3 (or_default interval 5000) (status_request token operationId)
        ++ [ConsoleLog ""])%list)
  /\ fetch_count (snd (run (waitForCompletion token operationId (Given (Int 3)) interval) net))
     = 3%nat
  /\ TimeoutError 3 operationId
     = Error ("Operation timed out after 3 attempts (ID: " ++ operationId ++ ")")
  /\ (forall attempt maxAttempts ms tr,
         attempt > maxAttempts ->
         checkOperationUntilComplete token operationId attempt maxAttempts ms net tr
         = (Throw (TimeoutError maxAttempts operationId), (tr ++ [ConsoleLog ""])%list)).
Proof.
  intros Hnet.
  assert (Hrun : run (waitForCompletion token operationId (Given (Int 3)) interval) net
                 = (Throw (TimeoutError 3 operationId),
                    (ConsoleLog "[API] Waiting for operation to complete..."
                       :: cycles 3 (or_default interval 5000)
                            (status_request token operationId)
                       ++ [ConsoleLog ""])%list)).
  { unfold waitForCompletion. run_monad. cbn [or_default truthy Z.eqb negb app].
    apply (poll_exhausts net token operationId 3 (or_default interval 5000) 3 1
             [ConsoleLog "[API] Waiting for operation to complete..."]).
    - reflexivity.
    - intros j Hj. cbn [fetch_count filter is_fetch List.length Nat.add].
      rewrite Hnet by exact Hj. reflexivity. }
  split; [exact Hrun|]. split; [|split].
  - rewrite Hrun. reflexivity.
  - reflexivity.
  - intros attempt maxAttempts ms tr H. now apply poll_timeout.
Qed.

Lemma waitForCompletion_times_out_after_3_attempts_witness :
  run (waitForCompletion "token" "op-17" (Given (Int 3)) (Given (Int 250)))
      (fun _ _ => Return not_completed)
  = (Throw (Error "Operation timed out after 3 attempts (ID: op-17)"),
     (ConsoleLog "[API] Waiting for operation to complete..."
        :: cycles 3 250 (status_request "token" "op-17") ++ [ConsoleLog ""])%list).
Proof.
  apply (waitForCompletion_times_out_after_3_attempts
           (fun _ _ => Return not_completed) "token" "op-17" (Given (Int 250))).
  intros n Hn. reflexivity.
Defined.

(** C2: when the replies to the first [k] status requests show a running
    operation and the next reply, still within the budget, carries an
    [operation] whose [is_completed] is [true] (or any truthy value: the
    code tests truthiness), [waitForCompletion] returns that [operation],
    not the whole reply, and the run ends there after [k + 1] fetches,
    whatever budget is left. *)
Theorem waitForCompletion_returns_operation_at_first_completion
    (net : network) (token operationId : string) (maxAttempts interval : numarg)
    (k : nat) (st : value) :
  Z.of_nat k < or_default maxAttempts 30 ->
  (forall j, (j < k)%nat ->
             observe (net j (status_request token operationId)) = Return None) ->
  net k (status_request token operationId) = Return st ->
  truthy (field (field st operation) is_completed) = true ->
  run (waitForCompletion token operationId maxAttempts interval) net
  = (Return (field st operation),
     (ConsoleLog "[API] Waiting for operation to complete..."
        :: cycles k (or_default interval 5000) (status_request token operationId)
        ++ [Sleep (or_default interval 5000);
            Fetch (status_request token operationId);
            ConsoleLog "✅ [API] Operation completed successfully"])%list)
  /\ fetch_count (snd (run (waitForCompletion token operationId maxAttempts interval) net))
     = S k.
Proof.
  intros Hk Hpend Hnet Hdone.
  assert (Hrun : run (waitForCompletion token operationId maxAttempts interval) net
                 = (Return (field st operation),
                    (ConsoleLog "[API] Waiting for operation to complete..."
                       :: cycles k (or_default interval 5000)
                            (status_request token operationId)
                       ++ [Sleep (or_default interval 5000);
                           Fetch (status_request token operationId);
                           ConsoleLog "✅ [API] Operation completed successfully"])%list)).
  { unfold waitForCompletion. run_monad. cbn [app].
    apply (poll_completes net token operationId (or_default maxAttempts 30)
             (or_default interval 5000) k (field st operation) 1
             [ConsoleLog "[API] Waiting for operation to complete..."]).
    - lia.
    - intros j Hj. cbn [fetch_count filter is_fetch List.length Nat.add].
      now apply Hpend.
    - cbn [fetch_count filter is_fetch List.length Nat.add].
      rewrite Hnet. cbn [observe]. now apply completed_operation_done. }
  split; [exact Hrun|].
  rewrite Hrun. cbn [snd].
  change (ConsoleLog "[API] Waiting for operation to complete..." :: ?l)%list
    with ([ConsoleLog "[API] Waiting for operation to complete..."] ++ l)%list.
  rewrite !fetch_count_app, fetch_count_cycles. cbn. lia.
Qed.

Lemma waitForCompletion_returns_operation_at_first_completion_witness :
  run (waitForCompletion "token" "op-17" Omitted Omitted) completes_on_second
  = (Return (Obj [("is_completed", Bool true); ("message", Str "done")]),
     (ConsoleLog "[API] Waiting for operation to complete..."
        :: cycles 1 5000 (status_request "token" "op-17")
        ++ [Sleep 5000;
            Fetch (status_request "token" "op-17");
            ConsoleLog "✅ [API] Operation completed successfully"])%list)
  /\ fetch_count (snd (run (waitForCompletion "token" "op-17" Omitted Omitted)
                         completes_on_second)) = 2%nat.
Proof.
  apply (waitForCompletion_returns_operation_at_first_completion
           completes_on_second "token" "op-17" Omitted Omitted 1
           (Obj [("operation",
                  Obj [("is_completed", Bool true); ("message", Str "done")])])).
  - reflexivity.
  - intros j Hj. assert (j = O) as -> by lia. reflexivity.
  - reflexivity.
  - reflexivity.
Defined.

(** C3, as stated, fails on the body [null], a status response with no
    [operation] field: reading [status.operation] throws, and the run ends
    on the first reply with a [TypeError], where a running operation would
    have been polled three times. *)
Lemma waitForCompletion_null_status_throws :
  field Null operation = Undefined
  /\ run (waitForCompletion "token" "op-17" (Given (Int 3)) Omitted)
         (fun _ _ => Return Null)
     = (Throw (TypeError "Cannot read properties of null (reading 'operation')"),
        [ConsoleLog "[API] Waiting for operation to complete...";
         Sleep 5000;
         Fetch (status_request "token" "op-17")])
  /\ run (waitForCompletion "token" "op-17" (Given (Int 3)) Omitted)
         (fun _ _ => Return Null)
     <> run (waitForCompletion "token" "op-17" (Given (Int 3)) Omitted)
            (fun _ _ => Return not_completed).
Proof.
  split; [reflexivity|]. split; [reflexivity|]. discriminate.
Qed.

(** C3, amended: for every status body other than [null] that has no
    [operation] field, the loop does what it does for a running operation.
    Within the budget the cycle does not fail: it goes on to the next
    attempt, the attempt counter one higher and a progress dot written; and
    a run in which one reply is such a body is, result and trace, the run in
    which that reply is [{operation: {is_completed: false}}], so polling
    goes on until completion or timeout. *)
Theorem missing_operation_polls_like_not_completed
    (net : network) (token operationId : string) (st : value) :
  nullish st = false ->
  field st operation = Undefined ->
  (forall attempt maxAttempts interval tr,
      attempt <= maxAttempts ->
      net (fetch_count tr) (status_request token operationId) = Return st ->
      checkOperationUntilComplete token operationId attempt maxAttempts interval net tr
      = checkOperationUntilComplete token operationId (attempt + 1) maxAttempts interval
          net (tr ++ [Sleep interval; Fetch (status_request token operationId);
                      StdoutWrite "."])%list)
  /\ (forall n maxAttempts interval,
         run (waitForCompletion token operationId maxAttempts interval)
             (override net n (Return st))
         = run (waitForCompletion token operationId maxAttempts interval)
               (override net n (Return not_completed))).
Proof.
  intros Hn Hf. split.
  - intros attempt maxAttempts interval tr Hle Hnet.
    rewrite poll_cycle by exact Hle.
    rewrite Hnet. cbn [observe].
    rewrite (completed_operation_missing st Hn Hf). reflexivity.
  - intros n maxAttempts interval. unfold waitForCompletion. run_monad.
    apply (poll_observe_ext _ _ token operationId _ _) with
      (n := Z.to_nat (or_default maxAttempts 30 + 1 - 1)); [|reflexivity].
    intros j. unfold override. destruct (Nat.eqb j n); [|reflexivity].
    cbn [observe].
    now rewrite (completed_operation_missing st Hn Hf), completed_operation_not_completed.
Qed.

Lemma missing_operation_polls_like_not_completed_witness :
  run (waitForCompletion "token" "op-17" (Given (Int 3)) Omitted)
      (override completes_on_second 0 (Return (Obj [("message", Str "queued")])))
  = run (waitForCompletion "token" "op-17" (Given (Int 3)) Omitted)
        (override completes_on_second 0 (Return not_completed)).
Proof.
  apply (proj2 (missing_operation_polls_like_not_completed
                  completes_on_second "token" "op-17" (Obj [("message", Str "queued")])
                  eq_refl eq_refl)
           O (Given (Int 3)) Omitted).
Defined.

(** C10: a falsy [maxAttempts] or [interval] ([0], [null], [undefined],
    [NaN]) is replaced by the default, 30 or 5000, exactly as when it is
    left out; so with both given as [0] and an operation that never
    completes, the run makes 30 attempts, each after a sleep of 5000 ms. *)
Theorem waitForCompletion_falsy_arguments_take_defaults
    (net : network) (token operationId : string) (falsy : numarg) :
  truthy (numarg_value falsy) = false ->
  (forall n, net n (status_request token operationId) = Return not_completed) ->
  (forall interval,
      waitForCompletion token operationId falsy interval
      = waitForCompletion token operationId Omitted interval
      /\ waitForCompletion token operationId falsy interval
         = waitForCompletion token operationId (Given (Int 30)) interval)
  /\ (forall maxAttempts,
         waitForCompletion token operationId maxAttempts falsy
         = waitForCompletion token operationId maxAttempts Omitted
         /\ waitForCompletion token operationId maxAttempts falsy
            = waitForCompletion token operationId maxAttempts (Given (Int 5000)))
  /\ run (waitForCompletion token operationId (Given (Int 0)) (Given (Int 0))) net
     = (Throw (TimeoutError 30 operationId),
        (ConsoleLog "[API] Waiting for operation to complete..."
           :: cycles 30 5000 (status_request token operationId)
           ++ [ConsoleLog ""])%list)
  /\ fetch_count
       (snd (run (waitForCompletion token operationId (Given (Int 0)) (Given (Int 0))) net))
     = 30%nat.
Proof.
  intros Hfalsy Hnet.
  assert (Hrun : run (waitForCompletion token operationId (Given (Int 0)) (Given (Int 0))) net
                 = (Throw (TimeoutError 30 operationId),
                    (ConsoleLog "[API] Waiting for operation to complete..."
                       :: cycles 30 5000 (status_request token operationId)
                       ++ [ConsoleLog ""])%list)).
  { unfold waitForCompletion. run_monad.
    cbn [or_default truthy Z.eqb negb app].
    apply (poll_exhausts net token operationId 30 5000 30 1
             [ConsoleLog "[API] Waiting for operation to complete..."]).
    - reflexivity.
    - intros j _. rewrite Hnet. reflexivity. }
  split; [|split; [|split]].
  - intros interval. unfold waitForCompletion.
    rewrite (or_default_falsy falsy 30 Hfalsy). split; reflexivity.
  - intros maxAttempts. unfold waitForCompletion.
    rewrite (or_default_falsy falsy 5000 Hfalsy). split; reflexivity.
  - exact Hrun.
  - rewrite Hrun. reflexivity.
Qed.

Lemma waitForCompletion_falsy_arguments_take_defaults_witness :
  run (waitForCompletion "token" "op-17" (Given (Int 0)) (Given (Int 0))) never_completes
  = (Throw (Error "Operation timed out after 30 attempts (ID: op-17)"),
     (ConsoleLog "[API] Waiting for operation to complete..."
        :: cycles 30 5000 (status_request "token" "op-17")
        ++ [ConsoleLog ""])%list).
Proof.
  apply (waitForCompletion_falsy_arguments_take_defaults
           never_completes "token" "op-17" (Given NaN)).
  - reflexivity.
  - intros n. reflexivity.
Defined.

(** ** The action executor *)

(** The only error a conversion to a string throws. *)
Lemma to_string_throws :
  forall (v : value) (e : exn), to_string v = Throw e -> e = conversion_error.
Proof.
  fix IH 1. intros v e.
  destruct v as [| |[]|n|s|items|props]; cbn [to_string]; try discriminate.
  - match goal with
    | |- match ?t with _ => _ end = _ -> _ =>
        assert (Hl : forall e', t = Throw e' -> e' = conversion_error);
        [clear e|destruct t; [discriminate|intros [= <-]; now apply Hl]]
    end.
    revert items. fix IHl 1. intros [|x r] e'; [discriminate|].
    pose proof (IH x) as Hx. pose proof (IHl r) as Hr.
    cbn -[to_string].
    destruct x as [| |b|n|s|items'|props'];
      try (match goal with
           | |- context [to_string ?y] => destruct (to_string y) as [t|e0] eqn:Ht;
                                          [|intros [= <-]; exact (Hx _ eq_refl)]
           end);
      match goal with
      | |- match ?t with _ => _ end = _ -> _ =>
          destruct t as [ts|e1]; [discriminate|intros [= <-]; exact (Hr _ eq_refl)]
      end.
  - destruct (has_own "toString" props); [|discriminate]. now intros [= <-].
Qed.

Section Action.

Variables (net : network) (token serverId action : string) (data : value).

Hypothesis Hreply : net O (varnish_request token serverId action) = Return data.

(** What is on the trace once the response has been logged. *)
Let sent : list event :=
  [ConsoleLog ("[API] Executing Varnish " ++ action ++ " on server " ++ serverId ++ "...");
   Fetch (varnish_request token serverId action);
   ConsoleLog ("[API] Response: " ++ stringified data)].

(** The three-way test of lines 66-78 on the [status] the response reads as. *)
Lemma executeVarnishAction_cases :
  nullish data = false ->
  run (executeVarnishAction token serverId action) net
  = if strict_eq_bool (field data status) false then
      (Throw (operation_failure (js_or (field data message) (Str "Unknown error"))), sent)
    else if strict_eq_bool (field data status) true then
      (Return (Obj [("completed", Bool true)]),
       (sent ++ [ConsoleLog ("✅ [API] Varnish " ++ action ++ " completed successfully")])%list)
    else
      (Throw (UnexpectedResponseError (stringified data)), sent).
Proof.
  intros Hn. unfold executeVarnishAction. run_monad.
  cbn [fetch_count filter is_fetch List.length app].
  rewrite Hreply. rewrite !(get_field _ _ Hn).
  destruct (strict_eq_bool (field data status) false).
  - unfold operation_failure.
    destruct (to_string (js_or (field data message) (Str "Unknown error")));
      reflexivity.
  - destruct (strict_eq_bool (field data status) true); reflexivity.
Qed.

End Action.

Lemma field_bool_not_nullish (data : value) (p : prop) (b : bool) :
  field data p = Bool b -> nullish data = false.
Proof. destruct data; cbn; intros H; try discriminate H; reflexivity. Qed.

(** C4: a response whose [status] is [true] makes [executeVarnishAction]
    return [{completed: true}], whatever else the response holds; and one
    whose [status] is [false] makes it throw right after the response is
    logged, the operation error or the error of converting the message,
    never the success and never the unexpected-response error, whatever
    else the response holds.  The two tests on [status], the failure test
    written first, decide the outcome before any other field is looked
    at. *)
Theorem executeVarnishAction_status_true_completes
    (net : network) (token serverId action : string) (data : value) :
  net O (varnish_request token serverId action) = Return data ->
  (field data status = Bool true ->
   run (executeVarnishAction token serverId action) net
   = (Return (Obj [("completed", Bool true)]),
      [ConsoleLog ("[API] Executing Varnish " ++ action ++ " on server " ++ serverId ++ "...");
       Fetch (varnish_request token serverId action);
       ConsoleLog ("[API] Response: " ++ stringified data);
       ConsoleLog ("✅ [API] Varnish " ++ action ++ " completed successfully")]))
  /\ (field data status = Bool false ->
      exists e,
        run (executeVarnishAction token serverId action) net
        = (Throw e,
           [ConsoleLog ("[API] Executing Varnish " ++ action ++ " on server "
                          ++ serverId ++ "...");
            Fetch (varnish_request token serverId action);
            ConsoleLog ("[API] Response: " ++ stringified data)])
        /\ ((exists provider_message, e = OperationError provider_message)
            \/ e = conversion_error)).
Proof.
  intros Hreply. split; intros Hst.
  - rewrite (executeVarnishAction_cases net token serverId action data Hreply
               (field_bool_not_nullish data status true Hst)).
    rewrite Hst. reflexivity.
  - rewrite (executeVarnishAction_cases net token serverId action data Hreply
               (field_bool_not_nullish data status false Hst)).
    rewrite Hst. cbn [strict_eq_bool Bool.eqb]. eexists. split; [reflexivity|].
    unfold operation_failure.
    destruct (to_string (js_or (field data message) (Str "Unknown error")))
      as [text|e] eqn:Hconv.
    + left. now exists text.
    + right. exact (to_string_throws _ _ Hconv).
Qed.

Lemma executeVarnishAction_status_true_completes_witness :
  run (executeVarnishAction "token" "1234" "purge")
      (replies (Obj [("status", Bool true); ("message", Str "ignored");
                     ("operation_id", Num (Int 99))]))
  = (Return (Obj [("completed", Bool true)]),
     [ConsoleLog "[API] Executing Varnish purge on server 1234...";
      Fetch (varnish_request "token" "1234" "purge");
      ConsoleLog ("[API] Response: "
                    ++ stringified (Obj [("status", Bool true); ("message", Str "ignored");
                                         ("operation_id", Num (Int 99))]));
      ConsoleLog "✅ [API] Varnish purge completed successfully"]).
Proof.
  apply (executeVarnishAction_status_true_completes
           (replies (Obj [("status", Bool true); ("message", Str "ignored");
                          ("operation_id", Num (Int 99))]))
           "token" "1234" "purge"
           (Obj [("status", Bool true); ("message", Str "ignored");
                 ("operation_id", Num (Int 99))])); reflexivity.
Defined.

(** C5, as stated, fails on a [message] that is present but falsy: with
    [{status: false, message: ""}] the field is there, the error message
    should be the empty string it holds, and the code says
    [Unknown error]. *)
Lemma executeVarnishAction_empty_message_is_unknown_error :
  let data := Obj [("status", Bool false); ("message", Str "")] in
  has_field data message = true
  /\ spec_operation_message data = ""
  /\ fst (run (executeVarnishAction "token" "1234" "purge") (replies data))
     = Throw (OperationError "Unknown error")
  /\ fst (run (executeVarnishAction "token" "1234" "purge") (replies data))
     <> Throw (OperationError (spec_operation_message data)).
Proof.
  cbv zeta. split; [reflexivity|]. split; [reflexivity|].
  split; [reflexivity|discriminate].
Qed.

(** C5, amended: a response whose [status] is [false] makes
    [executeVarnishAction] throw right after the response is logged.  When
    the [message] field is missing or falsy the error is the operation
    error with [Unknown error]; when it is truthy the error is the
    operation error with the field as the template literal prints it, a
    string message as it is; and when the field is an object that the
    template literal cannot convert, the error of that conversion.
    Numbers in the message are taken to be safe integers. *)
Theorem executeVarnishAction_status_false_fails
    (net : network) (token serverId action : string) (data : value) :
  net O (varnish_request token serverId action) = Return data ->
  field data status = Bool false ->
  safe_numbers (field data message) ->
  run (executeVarnishAction token serverId action) net
  = (Throw (if truthy (field data message) then operation_failure (field data message)
            else OperationError "Unknown error"),
     [ConsoleLog ("[API] Executing Varnish " ++ action ++ " on server " ++ serverId ++ "...");
      Fetch (varnish_request token serverId action);
      ConsoleLog ("[API] Response: " ++ stringified data)])
  /\ (forall s, field data message = Str s -> s <> "" ->
                fst (run (executeVarnishAction token serverId action) net)
                = Throw (OperationError s)).
Proof.
  intros Hreply Hst _.
  assert (Hrun : run (executeVarnishAction token serverId action) net
                 = (Throw (if truthy (field data message)
                           then operation_failure (field data message)
                           else OperationError "Unknown error"),
                    [ConsoleLog ("[API] Executing Varnish " ++ action ++ " on server "
                                   ++ serverId ++ "...");
                     Fetch (varnish_request token serverId action);
                     ConsoleLog ("[API] Response: " ++ stringified data)])).
  { rewrite (executeVarnishAction_cases net token serverId action data Hreply
               (field_bool_not_nullish data status false Hst)).
    rewrite Hst. cbn [strict_eq_bool Bool.eqb]. unfold js_or.
    destruct (truthy (field data message)); reflexivity. }
  split; [exact Hrun|].
  intros s Hs Hne. rewrite Hrun, Hs. cbn.
  destruct s; [now elim Hne|reflexivity].
Qed.

Lemma executeVarnishAction_status_false_fails_witness :
  run (executeVarnishAction "token" "1234" "purge")
      (replies (Obj [("status", Bool false); ("message", Str "Server is busy")]))
  = (Throw (Error "Operation failed: Server is busy"),
     [ConsoleLog "[API] Executing Varnish purge on server 1234...";
      Fetch (varnish_request "token" "1234" "purge");
      ConsoleLog ("[API] Response: "
                    ++ stringified (Obj [("status", Bool false);
                                         ("message", Str "Server is busy")]))]).
Proof.
  apply (executeVarnishAction_status_false_fails
           (replies (Obj [("status", Bool false); ("message", Str "Server is busy")]))
           "token" "1234" "purge"
           (Obj [("status", Bool false); ("message", Str "Server is busy")]));
    [reflexivity|reflexivity|exact I].
Defined.

(** C6, as stated, fails on the body [null], which holds neither
    [status: true] nor [status: false]: reading [data.status] throws a
    [TypeError], which does not carry the body. *)
Lemma executeVarnishAction_null_body_throws_TypeError :
  field Null status <> Bool true
  /\ field Null status <> Bool false
  /\ fst (run (executeVarnishAction "token" "1234" "purge") (replies Null))
     = Throw (TypeError "Cannot read properties of null (reading 'status')")
  /\ fst (run (executeVarnishAction "token" "1234" "purge") (replies Null))
     <> Throw (UnexpectedResponseError (stringified Null)).
Proof.
  split; [discriminate|]. split; [discriminate|]. split; [reflexivity|discriminate].
Qed.

(** C6, amended: a response other than [null] whose [status] is neither
    [true] nor [false] (missing, or not a boolean) makes
    [executeVarnishAction] throw the unexpected-response error, which
    carries the body as JSON. *)
Theorem executeVarnishAction_other_status_is_unexpected
    (net : network) (token serverId action : string) (data : value) :
  net O (varnish_request token serverId action) = Return data ->
  nullish data = false ->
  field data status <> Bool true ->
  field data status <> Bool false ->
  run (executeVarnishAction token serverId action) net
  = (Throw (UnexpectedResponseError (stringified data)),
     [ConsoleLog ("[API] Executing Varnish " ++ action ++ " on server " ++ serverId ++ "...");
      Fetch (varnish_request token serverId action);
      ConsoleLog ("[API] Response: " ++ stringified data)]).
Proof.
  intros Hreply Hn Ht Hf.
  rewrite (executeVarnishAction_cases net token serverId action data Hreply Hn).
  destruct (field data status) as [| |[]| | | |]; cbn; try reflexivity;
    [now elim Ht | now elim Hf].
Qed.

Lemma executeVarnishAction_other_status_is_unexpected_witness :
  run (executeVarnishAction "token" "1234" "purge")
      (replies (Obj [("status", Str "pending")]))
  = (Throw (Error ("Unexpected response: {" ++ dquote ++ "status" ++ dquote ++ ":"
                     ++ dquote ++ "pending" ++ dquote ++ "}")),
     [ConsoleLog "[API] Executing Varnish purge on server 1234...";
      Fetch (varnish_request "token" "1234" "purge");
      ConsoleLog ("[API] Response: " ++ stringified (Obj [("status", Str "pending")]))]).
Proof.
  apply (executeVarnishAction_other_status_is_unexpected
           (replies (Obj [("status", Str "pending")])) "token" "1234" "purge"
           (Obj [("status", Str "pending")]));
    try reflexivity; discriminate.
Defined.

(** ** The authenticator *)

(** C7: a response whose [access_token] is a non-empty string (or any
    other truthy value) makes [getAccessToken] return exactly that value,
    after a single request. *)
Theorem getAccessToken_returns_the_token
    (net : network) (email apiKey : string) (data : value) :
  net O (token_request email apiKey) = Return data ->
  truthy (field data access_token) = true ->
  run (getAccessToken email apiKey) net
  = (Return (field data access_token),
     [ConsoleLog "[API] Obtaining OAuth access token...";
      Fetch (token_request email apiKey);
      ConsoleLog "✅ [API] Access token obtained"]).
Proof.
  intros Hreply Ht. unfold getAccessToken. run_monad.
  cbn [fetch_count filter is_fetch List.length app].
  rewrite Hreply, (get_field _ _ (field_not_nullish _ _ Ht)), Ht. reflexivity.
Qed.

Lemma getAccessToken_returns_the_token_witness :
  run (getAccessToken "me@example.org" "key")
      (replies (Obj [("access_token", Str "tok-1"); ("expires_in", Num (Int 3600))]))
  = (Return (Str "tok-1"),
     [ConsoleLog "[API] Obtaining OAuth access token...";
      Fetch (token_request "me@example.org" "key");
      ConsoleLog "✅ [API] Access token obtained"]).
Proof.
  apply (getAccessToken_returns_the_token
           (replies (Obj [("access_token", Str "tok-1"); ("expires_in", Num (Int 3600))]))
           "me@example.org" "key"
           (Obj [("access_token", Str "tok-1"); ("expires_in", Num (Int 3600))]));
    reflexivity.
Defined.

(** C8, as stated, fails on the body [null], a response without the token
    field: reading [data.access_token] throws a [TypeError], which does not
    carry the body. *)
Lemma getAccessToken_null_body_throws_TypeError :
  field Null access_token = Undefined
  /\ run (getAccessToken "me@example.org" "key") (replies Null)
     = (Throw (TypeError "Cannot read properties of null (reading 'access_token')"),
        [ConsoleLog "[API] Obtaining OAuth access token...";
         Fetch (token_request "me@example.org" "key")])
  /\ fst (run (getAccessToken "me@example.org" "key") (replies Null))
     <> Throw (AuthenticationError (stringified Null)).
Proof.
  split; [reflexivity|]. split; [reflexivity|discriminate].
Qed.

(** C8, amended: a response other than [null] whose [access_token] is
    missing or falsy ([null], the empty string, [0], [false]) makes
    [getAccessToken] throw the authentication error, which carries the body
    as JSON, after its single request: nothing is retried. *)
Theorem getAccessToken_fails_without_token
    (net : network) (email apiKey : string) (data : value) :
  net O (token_request email apiKey) = Return data ->
  nullish data = false ->
  truthy (field data access_token) = false ->
  run (getAccessToken email apiKey) net
  = (Throw (AuthenticationError (stringified data)),
     [ConsoleLog "[API] Obtaining OAuth access token...";
      Fetch (token_request email apiKey)])
  /\ fetch_count (snd (run (getAccessToken email apiKey) net)) = 1%nat.
Proof.
  intros Hreply Hn Ht.
  assert (Hrun : run (getAccessToken email apiKey) net
                 = (Throw (AuthenticationError (stringified data)),
                    [ConsoleLog "[API] Obtaining OAuth access token...";
                     Fetch (token_request email apiKey)])).
  { unfold getAccessToken. run_monad.
    cbn [fetch_count filter is_fetch List.length app].
    rewrite Hreply, (get_field _ _ Hn), Ht. reflexivity. }
  split; [exact Hrun|]. rewrite Hrun. reflexivity.
Qed.

Lemma getAccessToken_fails_without_token_witness :
  run (getAccessToken "me@example.org" "key") (replies (Obj []))
  = (Throw (Error "Failed to obtain access token: {}"),
     [ConsoleLog "[API] Obtaining OAuth access token...";
      Fetch (token_request "me@example.org" "key")])
  /\ fetch_count (snd (run (getAccessToken "me@example.org" "key") (replies (Obj []))))
     = 1%nat.
Proof.
  apply (getAccessToken_fails_without_token
           (replies (Obj [])) "me@example.org" "key" (Obj [])); reflexivity.
Defined.

(** ** The request payload *)

Lemma parseInt_non_numeric (s : string) : non_numeric s = true -> parseInt s = NaN.
Proof.
  unfold non_numeric, parseInt.
  destruct (strip_sign (trim_start s)) as [sign digits]. cbn [snd].
  destruct digits as [|a r]; [reflexivity|].
  cbn [leading_digits]. intros H.
  destruct (is_digit a); [discriminate H|reflexivity].
Qed.

Lemma has_digit_trim_start (s : string) :
  has_digit s = false -> has_digit (trim_start s) = false.
Proof.
  assert (H : forall n s, (String.length s <= n)%nat ->
                          has_digit s = false -> has_digit (trim_start s) = false).
  { clear s. induction n as [|n IH]; intros s Hl Hd.
    - destruct s; [reflexivity|cbn in Hl; lia].
    - destruct s as [|a r1]; [reflexivity|].
      cbn [has_digit] in Hd. apply orb_false_iff in Hd as [Ha H1].
      cbn [String.length] in Hl. cbn [trim_start].
      destruct (white_space_1 a); [apply IH; [lia|exact H1]|].
      destruct r1 as [|b r2]; [cbn; now rewrite Ha|].
      cbn [has_digit] in H1. apply orb_false_iff in H1 as [Hb H2].
      cbn [String.length] in Hl.
      destruct (white_space_2 a b); [apply IH; [lia|exact H2]|].
      destruct r2 as [|c r3]; [cbn; now rewrite Ha, Hb|].
      cbn [has_digit] in H2. apply orb_false_iff in H2 as [Hc H3].
      cbn [String.length] in Hl.
      destruct (white_space_3 a b c); [apply IH; [lia|exact H3]|].
      cbn. now rewrite Ha, Hb, Hc, H3. }
  apply (H (String.length s)). lia.
Qed.

(** A string without any decimal digit has no integer to read. *)
Lemma non_numeric_without_digit (s : string) :
  has_digit s = false -> non_numeric s = true.
Proof.
  intros H. apply has_digit_trim_start in H. unfold non_numeric, strip_sign.
  destruct (trim_start s) as [|a r]; [reflexivity|].
  cbn [has_digit] in H. apply orb_false_iff in H as [Ha Hr].
  destruct (a =? "-")%char; [|destruct (a =? "+")%char]; cbn [snd].
  - destruct r as [|b r']; [reflexivity|].
    cbn [has_digit] in Hr. apply orb_false_iff in Hr as [Hb _]. now rewrite Hb.
  - destruct r as [|b r']; [reflexivity|].
    cbn [has_digit] in Hr. apply orb_false_iff in Hr as [Hb _]. now rewrite Hb.
  - now rewrite Ha.
Qed.

(** C9, as stated, fails on a [serverId] that is not a number but starts
    with digits: ["1234px"] is no decimal integer, yet [parseInt] reads
    1234 from it, and it is 1234, not [NaN], that goes into [server_id]. *)
Lemma executeVarnishAction_sends_leading_digits_of_non_numeric :
  decimal_integer "1234px" = false
  /\ parseInt "1234px" = Int 1234
  /\ payload "1234px" "purge" = Obj [("server_id", Num (Int 1234)); ("action", Str "purge")]
  /\ payload "1234px" "purge" <> Obj [("server_id", Num NaN); ("action", Str "purge")].
Proof.
  split; [reflexivity|]. split; [reflexivity|]. split; [reflexivity|discriminate].
Qed.

(** C9, amended: a [serverId] that, after leading white space and an
    optional sign, does not start with a decimal digit does not stop
    [executeVarnishAction]: [parseInt] yields [NaN], the payload is built
    with [NaN] in its [server_id] field and sent (as JSON, where [NaN]
    reads [null]), and no error is raised before the request. *)
Theorem executeVarnishAction_sends_NaN_server_id
    (net : network) (token serverId action : string) :
  non_numeric serverId = true ->
  parseInt serverId = NaN
  /\ payload serverId action = Obj [("server_id", Num NaN); ("action", Str action)]
  /\ body (varnish_request token serverId action)
     = Some (stringified (Obj [("server_id", Num NaN); ("action", Str action)]))
  /\ exists result rest,
       run (executeVarnishAction token serverId action) net
       = (result,
          ConsoleLog ("[API] Executing Varnish " ++ action ++ " on server "
                        ++ serverId ++ "...")
            :: Fetch (varnish_request token serverId action) :: rest).
Proof.
  intros H. pose proof (parseInt_non_numeric serverId H) as Hp.
  split; [exact Hp|]. split; [|split].
  - unfold payload. now rewrite Hp.
  - unfold varnish_request, payload. cbn [body]. now rewrite Hp.
  - unfold executeVarnishAction. run_monad.
    cbn [fetch_count filter is_fetch List.length app].
    destruct (net O (varnish_request token serverId action)) as [data|e].
    + destruct (get data status) as [st|e]; [|eexists; eexists; reflexivity].
      destruct (strict_eq_bool st false).
      * destruct (get data message) as [msg|e]; [|eexists; eexists; reflexivity].
        destruct (to_string (js_or msg (Str "Unknown error")));
          eexists; eexists; reflexivity.
      * destruct (strict_eq_bool st true); eexists; eexists; reflexivity.
    + eexists; eexists; reflexivity.
Qed.

Lemma executeVarnishAction_sends_NaN_server_id_witness :
  parseInt "my-server" = NaN
  /\ payload "my-server" "purge" = Obj [("server_id", Num NaN); ("action", Str "purge")]
  /\ body (varnish_request "token" "my-server" "purge")
     = Some ("{" ++ dquote ++ "server_id" ++ dquote ++ ":null,"
                 ++ dquote ++ "action" ++ dquote ++ ":" ++ dquote ++ "purge" ++ dquote ++ "}").
Proof.
  pose proof (executeVarnishAction_sends_NaN_server_id
                (replies (Obj [("status", Bool true)])) "token" "my-server" "purge"
                eq_refl) as [H1 [H2 [H3 _]]].
  split; [exact H1|]. split; [exact H2|exact H3].
Defined.

(** * Further properties of [api.js] *)

(** ** Every way a polling run can go *)

(** Whatever the network does, the loop runs some unsuccessful cycles and
    then ends in one of the three ways of [poll_end]. *)
Lemma poll_shape (net : network) (token operationId : string) (maxAttempts interval : Z) :
  forall (n : nat) (attempt : Z) (tr : list event),
    Z.to_nat (maxAttempts + 1 - attempt) = n ->
    exists j,
      (forall i, (i < j)%nat ->
                 observe (net (fetch_count tr + i)%nat (status_request token operationId))
                 = Return None)
      /\ poll_end net token operationId maxAttempts interval n tr j
           (checkOperationUntilComplete token operationId attempt maxAttempts interval
              net tr).
Proof.
  induction n as [|n IH]; intros attempt tr Hn.
  - exists O. split; [intros i Hi; lia|].
    rewrite poll_timeout by lia.
    now apply (end_timeout net token operationId maxAttempts interval O tr O).
  - rewrite poll_cycle by lia.
    destruct (observe (net (fetch_count tr) (status_request token operationId)))
      as [[op|]|e] eqn:Hobs.
    + exists O. split; [intros i Hi; lia|].
      apply (end_completed net token operationId maxAttempts interval (S n) tr O op); [lia|].
      now rewrite Nat.add_0_r.
    + destruct (IH (attempt + 1) (tr ++ cycle interval (status_request token operationId))%list)
        as [j [Hrun Hend]]; [lia|].
      exists (S j). split.
      * intros [|i] Hi; [now rewrite Nat.add_0_r|].
        specialize (Hrun i). rewrite fetch_count_cycle in Hrun.
        replace (fetch_count tr + S i)%nat with (S (fetch_count tr) + i)%nat by lia.
        apply Hrun. lia.
      * assert (Hidx : (fetch_count (tr ++ cycle interval (status_request token operationId))
                        + j = fetch_count tr + S j)%nat)
          by (rewrite fetch_count_cycle; lia).
        inversion Hend as [Hj Heq | op Hj Hop Heq | e Hj He Heq]; cbn [cycles];
          rewrite <- !app_assoc.
        -- apply end_timeout. lia.
        -- apply end_completed; [lia|]. now rewrite <- Hidx.
        -- apply end_thrown; [lia|]. now rewrite <- Hidx.
    + exists O. split; [intros i Hi; lia|].
      apply (end_thrown net token operationId maxAttempts interval (S n) tr O e); [lia|].
      now rewrite Nat.add_0_r.
Qed.

(** The same for a whole run of [waitForCompletion]. *)
Lemma waitForCompletion_shape
    (net : network) (token operationId : string) (maxAttempts interval : numarg) :
  exists j,
    (forall i, (i < j)%nat ->
               observe (net i (status_request token operationId)) = Return None)
    /\ poll_end net token operationId (or_default maxAttempts 30)
         (or_default interval 5000) (Z.to_nat (or_default maxAttempts 30))
         [ConsoleLog "[API] Waiting for operation to complete..."] j
         (run (waitForCompletion token operationId maxAttempts interval) net).
Proof.
  destruct (poll_shape net token operationId (or_default maxAttempts 30)
              (or_default interval 5000) (Z.to_nat (or_default maxAttempts 30)) 1
              [ConsoleLog "[API] Waiting for operation to complete..."])
    as [j [Hrun Hend]].
  - f_equal. lia.
  - exists j. split; [exact Hrun|exact Hend].
Qed.

Lemma fetch_count_run_trace (first : event) (j : nat) (interval : Z) (req : request)
    (ending : list event) :
  is_fetch first = false ->
  fetch_count ([first] ++ cycles j interval req ++ ending) = (j + fetch_count ending)%nat.
Proof.
  intros H. rewrite !fetch_count_app, fetch_count_cycles.
  unfold fetch_count at 1. cbn [filter]. rewrite H. reflexivity.
Qed.

(** A reply the loop reads as completed is a body whose [operation] has a
    truthy [is_completed]; what the loop hands back is that [operation]. *)
Lemma observe_completed (reply : outcome value) (op : value) :
  observe reply = Return (Some op) ->
  exists st, reply = Return st
             /\ op = field st operation
             /\ truthy (field op is_completed) = true.
Proof.
  destruct reply as [st|e]; cbn [observe]; [|discriminate].
  intros H. exists st. split; [reflexivity|].
  destruct (nullish st) eqn:Hn.
  - destruct st; try discriminate Hn; discriminate H.
  - rewrite (completed_operation_field st Hn) in H.
    destruct (truthy (field (field st operation) is_completed)) eqn:Ht;
      [|discriminate H].
    injection H as <-. split; [reflexivity|exact Ht].
Qed.

(** [k] cycles that see a running operation, then a request that fails or
    a reply that cannot be read: the loop throws there. *)
Lemma poll_throws (net : network) (token operationId : string) (maxAttempts interval : Z)
    (k : nat) (e : exn) :
  forall (attempt : Z) (tr : list event),
    attempt + Z.of_nat k <= maxAttempts ->
    (forall j, (j < k)%nat ->
               observe (net (fetch_count tr + j)%nat (status_request token operationId))
               = Return None) ->
    observe (net (fetch_count tr + k)%nat (status_request token operationId)) = Throw e ->
    checkOperationUntilComplete token operationId attempt maxAttempts interval net tr
    = (Throw e,
       (tr ++ cycles k interval (status_request token operationId)
           ++ [Sleep interval; Fetch (status_request token operationId)])%list).
Proof.
  induction k as [|k IH]; intros attempt tr Hk Hpend Hthrow.
  - rewrite poll_cycle by lia. rewrite Nat.add_0_r in Hthrow. now rewrite Hthrow.
  - rewrite poll_cycle by lia.
    specialize (Hpend O) as H0. rewrite Nat.add_0_r in H0. rewrite H0 by lia.
    rewrite IH.
    + cbn [cycles]. now rewrite <- !app_assoc.
    + lia.
    + intros j Hj. rewrite fetch_count_cycle.
      replace (S (fetch_count tr) + j)%nat with (fetch_count tr + S j)%nat by lia.
      apply Hpend. lia.
    + rewrite fetch_count_cycle.
      replace (S (fetch_count tr) + k)%nat with (fetch_count tr + S k)%nat by lia.
      exact Hthrow.
Qed.

(** ** The completion waiter on any network *)

(** X1: whatever the status endpoint answers, [waitForCompletion] never
    makes more status requests than its budget, [maxAttempts || 30]. *)
Theorem waitForCompletion_fetches_at_most_budget
    (net : network) (token operationId : string) (maxAttempts interval : numarg) :
  (fetch_count (snd (run (waitForCompletion token operationId maxAttempts interval) net))
   <= Z.to_nat (or_default maxAttempts 30))%nat.
Proof.
  destruct (waitForCompletion_shape net token operationId maxAttempts interval)
    as [j [_ Hend]].
  remember (run (waitForCompletion token operationId maxAttempts interval) net) as r eqn:Hr.
  clear Hr. destruct Hend as [Hj | op Hj Hop | e Hj He]; cbn [snd];
    rewrite fetch_count_run_trace by reflexivity; cbn; lia.
Qed.

(** X2: the trace of every run of [waitForCompletion] is the opening log
    line, some unsuccessful cycles (sleep for the interval, status request,
    progress dot) and one of three endings: the empty log line of the
    timeout, a last sleep and request with the success line, or a last
    sleep and request that threw.  So every request is the status request
    of this operation, each comes right after a sleep of the interval, and
    nothing else is ever sent. *)
Theorem waitForCompletion_trace_shape
    (net : network) (token operationId : string) (maxAttempts interval : numarg) :
  exists (j : nat) (ending : list event),
    (j <= Z.to_nat (or_default maxAttempts 30))%nat
    /\ snd (run (waitForCompletion token operationId maxAttempts interval) net)
       = ([ConsoleLog "[API] Waiting for operation to complete..."]
            ++ cycles j (or_default interval 5000) (status_request token operationId)
            ++ ending)%list
    /\ (ending = [ConsoleLog ""]
        \/ ending = [Sleep (or_default interval 5000);
                     Fetch (status_request token operationId);
                     ConsoleLog "✅ [API] Operation completed successfully"]
        \/ ending = [Sleep (or_default interval 5000);
                     Fetch (status_request token operationId)]).
Proof.
  destruct (waitForCompletion_shape net token operationId maxAttempts interval)
    as [j [_ Hend]].
  exists j.
  remember (run (waitForCompletion token operationId maxAttempts interval) net) as r eqn:Hr.
  clear Hr. destruct Hend as [Hj | op Hj Hop | e Hj He]; cbn [snd];
    eexists; (split; [lia|]); (split; [reflexivity|]); auto.
Qed.

(** X3: a value [waitForCompletion] returns is always the [operation] of a
    reply it received within the budget, and its [is_completed] is truthy;
    the replies before it were read as a running operation and that reply
    was the last request of the run. *)
Theorem waitForCompletion_returns_only_a_completed_operation
    (net : network) (token operationId : string) (maxAttempts interval : numarg)
    (v : value) :
  fst (run (waitForCompletion token operationId maxAttempts interval) net) = Return v ->
  exists (k : nat) (st : value),
    Z.of_nat k < or_default maxAttempts 30
    /\ net k (status_request token operationId) = Return st
    /\ v = field st operation
    /\ truthy (field v is_completed) = true
    /\ (forall i, (i < k)%nat ->
                  observe (net i (status_request token operationId)) = Return None)
    /\ fetch_count (snd (run (waitForCompletion token operationId maxAttempts interval) net))
       = S k.
Proof.
  destruct (waitForCompletion_shape net token operationId maxAttempts interval)
    as [j [Hrun Hend]].
  remember (run (waitForCompletion token operationId maxAttempts interval) net) as r eqn:Hr.
  clear Hr. destruct Hend as [Hj | op Hj Hop | e Hj He]; cbn [fst snd];
    intros Hv; try discriminate Hv.
  injection Hv as <-.
  cbn [fetch_count filter is_fetch List.length Nat.add] in Hop.
  destruct (observe_completed _ _ Hop) as [st [Hst [Hop' Ht]]].
  exists j, st. repeat split; try assumption.
  - lia.
  - rewrite fetch_count_run_trace by reflexivity. cbn. lia.
Qed.

Lemma waitForCompletion_returns_only_a_completed_operation_witness :
  exists (k : nat) (st : value),
    Z.of_nat k < 30
    /\ completes_on_second k (status_request "token" "op-17") = Return st
    /\ Obj [("is_completed", Bool true); ("message", Str "done")] = field st operation
    /\ truthy (field (Obj [("is_completed", Bool true); ("message", Str "done")])
                 is_completed) = true
    /\ (forall i, (i < k)%nat ->
                  observe (completes_on_second i (status_request "token" "op-17"))
                  = Return None)
    /\ fetch_count (snd (run (waitForCompletion "token" "op-17" Omitted Omitted)
                           completes_on_second)) = S k.
Proof.
  apply (waitForCompletion_returns_only_a_completed_operation
           completes_on_second "token" "op-17" Omitted Omitted
           (Obj [("is_completed", Bool true); ("message", Str "done")])).
  reflexivity.
Defined.

(** X4: a status request that fails (or a body that is not JSON) ends the
    polling at once with that very error: after [k] replies read as a
    running operation, the failure of the next request within the budget is
    thrown on, nothing is caught or retried and no further request is
    made. *)
Theorem waitForCompletion_passes_on_a_failed_request
    (net : network) (token operationId : string) (maxAttempts interval : numarg)
    (k : nat) (e : exn) :
  Z.of_nat k < or_default maxAttempts 30 ->
  (forall j, (j < k)%nat ->
             observe (net j (status_request token operationId)) = Return None) ->
  net k (status_request token operationId) = Throw e ->
  run (waitForCompletion token operationId maxAttempts interval) net
  = (Throw e,
     ([ConsoleLog "[API] Waiting for operation to complete..."]
        ++ cycles k (or_default interval 5000) (status_request token operationId)
        ++ [Sleep (or_default interval 5000);
            Fetch (status_request token operationId)])%list)
  /\ fetch_count (snd (run (waitForCompletion token operationId maxAttempts interval) net))
     = S k.
Proof.
  intros Hk Hpend Hfail.
  assert (Hrun : run (waitForCompletion token operationId maxAttempts interval) net
                 = (Throw e,
                    ([ConsoleLog "[API] Waiting for operation to complete..."]
                       ++ cycles k (or_default interval 5000)
                            (status_request token operationId)
                       ++ [Sleep (or_default interval 5000);
                           Fetch (status_request token operationId)])%list)).
  { unfold waitForCompletion. run_monad. cbn [app].
    apply (poll_throws net token operationId (or_default maxAttempts 30)
             (or_default interval 5000) k e 1
             [ConsoleLog "[API] Waiting for operation to complete..."]).
    - lia.
    - intros j Hj. cbn [fetch_count filter is_fetch List.length Nat.add].
      now apply Hpend.
    - cbn [fetch_count filter is_fetch List.length Nat.add]. now rewrite Hfail. }
  split; [exact Hrun|].
  rewrite Hrun. cbn [snd]. rewrite fetch_count_run_trace by reflexivity. cbn. lia.
Qed.

Lemma waitForCompletion_passes_on_a_failed_request_witness :
  run (waitForCompletion "token" "op-17" Omitted (Given (Int 100))) fails_on_second
  = (Throw (TypeError "fetch failed"),
     ([ConsoleLog "[API] Waiting for operation to complete..."]
        ++ cycles 1 100 (status_request "token" "op-17")
        ++ [Sleep 100; Fetch (status_request "token" "op-17")])%list)
  /\ fetch_count (snd (run (waitForCompletion "token" "op-17" Omitted (Given (Int 100)))
                         fails_on_second)) = 2%nat.
Proof.
  apply (waitForCompletion_passes_on_a_failed_request
           fails_on_second "token" "op-17" Omitted (Given (Int 100)) 1
           (TypeError "fetch failed")).
  - reflexivity.
  - intros j Hj. assert (j = O) as -> by lia. reflexivity.
  - reflexivity.
Defined.

(** X5: a negative [maxAttempts] is truthy, so it is not replaced by the
    default: the run times out at once, without a sleep and without a
    single status request, whatever the network would have answered, and
    the message names the negative count. *)
Theorem waitForCompletion_negative_budget_never_polls
    (net : network) (token operationId : string) (z : Z) (interval : numarg) :
  safe_integer z ->
  z < 0 ->
  run (waitForCompletion token operationId (Given (Int z)) interval) net
  = (Throw (Error ("Operation timed out after " ++ Z_to_string z
                     ++ " attempts (ID: " ++ operationId ++ ")")),
     [ConsoleLog "[API] Waiting for operation to complete..."; ConsoleLog ""]).
Proof.
  intros _ Hz. unfold waitForCompletion. run_monad. cbn [app or_default truthy].
  replace (z =? 0) with false by (symmetry; apply Z.eqb_neq; lia). cbn [negb].
  apply (poll_timeout net token operationId z (or_default interval 5000) 1
           [ConsoleLog "[API] Waiting for operation to complete..."]).
  lia.
Qed.

Lemma waitForCompletion_negative_budget_never_polls_witness :
  run (waitForCompletion "token" "op-17" (Given (Int (-1))) Omitted) completes_on_second
  = (Throw (Error "Operation timed out after -1 attempts (ID: op-17)"),
     [ConsoleLog "[API] Waiting for operation to complete..."; ConsoleLog ""]).
Proof.
  apply (waitForCompletion_negative_budget_never_polls
           completes_on_second "token" "op-17" (-1) Omitted).
  - unfold safe_integer. lia.
  - reflexivity.
Defined.

(** X6: for every integer budget, not only 3 or the default (a safe
    integer, as every counter of the loop is): when each reply the run gets
    is read as a running operation, [waitForCompletion] makes exactly as
    many status requests as the budget [maxAttempts || 30] allows, none
    when it is negative, each after a sleep of the interval, and then
    throws the timeout error that names the budget. *)
Theorem waitForCompletion_times_out_after_the_budget
    (net : network) (token operationId : string) (maxAttempts interval : numarg) :
  safe_integer (or_default maxAttempts 30) ->
  (forall n, (n < Z.to_nat (or_default maxAttempts 30))%nat ->
             observe (net n (status_request token operationId)) = Return None) ->
  run (waitForCompletion token operationId maxAttempts interval) net
  = (Throw (TimeoutError (or_default maxAttempts 30) operationId),
     ([ConsoleLog "[API] Waiting for operation to complete..."]
        ++ cycles (Z.to_nat (or_default maxAttempts 30)) (or_default interval 5000)
             (status_request token operationId)
        ++ [ConsoleLog ""])%list)
  /\ fetch_count (snd (run (waitForCompletion token operationId maxAttempts interval) net))
     = Z.to_nat (or_default maxAttempts 30).
Proof.
  intros _ Hpend.
  assert (Hrun : run (waitForCompletion token operationId maxAttempts interval) net
                 = (Throw (TimeoutError (or_default maxAttempts 30) operationId),
                    ([ConsoleLog "[API] Waiting for operation to complete..."]
                       ++ cycles (Z.to_nat (or_default maxAttempts 30))
                            (or_default interval 5000)
                            (status_request token operationId)
                       ++ [ConsoleLog ""])%list)).
  { unfold waitForCompletion. run_monad. cbn [app].
    destruct (Z_lt_le_dec (or_default maxAttempts 30) 0) as [Hneg|Hpos].
    - replace (Z.to_nat (or_default maxAttempts 30)) with O by lia.
      apply (poll_timeout net token operationId (or_default maxAttempts 30)
               (or_default interval 5000) 1
               [ConsoleLog "[API] Waiting for operation to complete..."]).
      lia.
    - apply (poll_exhausts net token operationId (or_default maxAttempts 30)
               (or_default interval 5000) (Z.to_nat (or_default maxAttempts 30)) 1
               [ConsoleLog "[API] Waiting for operation to complete..."]).
      + lia.
      + intros j Hj. cbn [fetch_count filter is_fetch List.length Nat.add].
        now apply Hpend. }
  split; [exact Hrun|].
  rewrite Hrun. cbn [snd]. rewrite fetch_count_run_trace by reflexivity. cbn. lia.
Qed.

Lemma waitForCompletion_times_out_after_the_budget_witness :
  run (waitForCompletion "token" "op-17" (Given (Int 7)) (Given (Int 100))) never_completes
  = (Throw (Error "Operation timed out after 7 attempts (ID: op-17)"),
     ([ConsoleLog "[API] Waiting for operation to complete..."]
        ++ cycles 7 100 (status_request "token" "op-17") ++ [ConsoleLog ""])%list)
  /\ fetch_count (snd (run (waitForCompletion "token" "op-17" (Given (Int 7))
                              (Given (Int 100))) never_completes)) = 7%nat.
Proof.
  apply (waitForCompletion_times_out_after_the_budget
           never_completes "token" "op-17" (Given (Int 7)) (Given (Int 100))).
  - unfold safe_integer. cbn. lia.
  - intros n Hn. reflexivity.
Defined.

(** X7: the loop tells a completed operation from a running one by one
    test only.  Every body other than [null] whose [operation] has no
    truthy [is_completed], be the [operation] [null], [false], a string, an
    object without the flag or with a falsy one, drives a run exactly as
    [{operation: {is_completed: false}}] does: the guard on
    [status.operation] keeps the read of [is_completed] from throwing. *)
Theorem every_running_shape_polls_alike
    (net : network) (token operationId : string) (st : value)
    (n : nat) (maxAttempts interval : numarg) :
  nullish st = false ->
  truthy (field (field st operation) is_completed) = false ->
  run (waitForCompletion token operationId maxAttempts interval)
      (override net n (Return st))
  = run (waitForCompletion token operationId maxAttempts interval)
        (override net n (Return not_completed)).
Proof.
  intros Hn Hf. unfold waitForCompletion. run_monad.
  apply (poll_observe_ext _ _ token operationId _ _) with
    (n := Z.to_nat (or_default maxAttempts 30 + 1 - 1)); [|reflexivity].
  intros j. unfold override. destruct (Nat.eqb j n); [|reflexivity].
  cbn [observe].
  now rewrite (completed_operation_field st Hn), Hf, completed_operation_not_completed.
Qed.

Lemma every_running_shape_polls_alike_witness :
  run (waitForCompletion "token" "op-17" (Given (Int 3)) Omitted)
      (override completes_on_second 1 (Return (Obj [("operation", Null)])))
  = run (waitForCompletion "token" "op-17" (Given (Int 3)) Omitted)
        (override completes_on_second 1 (Return not_completed)).
Proof.
  apply (every_running_shape_polls_alike
           completes_on_second "token" "op-17" (Obj [("operation", Null)])
           1 (Given (Int 3)) Omitted); reflexivity.
Defined.

(** ** The action executor and the authenticator on any network *)

(** X8: [executeVarnishAction] returns only on a response whose [status]
    is the boolean [true], and then always the same [{completed: true}]:
    no other response, and no failed request, makes it return. *)
Theorem executeVarnishAction_returns_only_on_status_true
    (net : network) (token serverId action : string) (v : value) :
  fst (run (executeVarnishAction token serverId action) net) = Return v ->
  v = Obj [("completed", Bool true)]
  /\ exists data,
       net O (varnish_request token serverId action) = Return data
       /\ field data status = Bool true.
Proof.
  unfold executeVarnishAction. run_monad.
  cbn [fetch_count filter is_fetch List.length app].
  destruct (net O (varnish_request token serverId action)) as [data|e];
    [|discriminate].
  destruct (nullish data) eqn:Hn.
  - destruct data; try discriminate Hn; discriminate.
  - rewrite !(get_field _ _ Hn).
    destruct (field data status) as [| |[]| | | |] eqn:Hst; cbn; try discriminate.
    + intros [= <-]. split; [reflexivity|]. exists data. split; [reflexivity|exact Hst].
    + destruct (to_string (js_or (field data message) (Str "Unknown error")));
        discriminate.
Qed.

Lemma executeVarnishAction_returns_only_on_status_true_witness :
  Obj [("completed", Bool true)] = Obj [("completed", Bool true)]
  /\ exists data,
       replies (Obj [("status", Bool true)]) O (varnish_request "token" "1234" "purge")
       = Return data
       /\ field data status = Bool true.
Proof.
  apply (executeVarnishAction_returns_only_on_status_true
           (replies (Obj [("status", Bool true)])) "token" "1234" "purge"
           (Obj [("completed", Bool true)])).
  reflexivity.
Defined.

(** X9: whatever the action endpoint answers, and also when the request
    fails, [executeVarnishAction] sends exactly one request, the POST to
    [/service/varnish], right after its first log line; everything after it
    is console output: it never sleeps, polls or retries. *)
Theorem executeVarnishAction_sends_one_request
    (net : network) (token serverId action : string) :
  exists rest,
    snd (run (executeVarnishAction token serverId action) net)
    = ConsoleLog ("[API] Executing Varnish " ++ action ++ " on server " ++ serverId ++ "...")
        :: Fetch (varnish_request token serverId action) :: rest
    /\ forallb is_console_log rest = true
    /\ fetch_count (snd (run (executeVarnishAction token serverId action) net)) = 1%nat.
Proof.
  unfold executeVarnishAction. run_monad.
  cbn [fetch_count filter is_fetch List.length app].
  destruct (net O (varnish_request token serverId action)) as [data|e];
    [|eexists; repeat split].
  destruct (get data status) as [st|e]; [|eexists; repeat split].
  destruct (strict_eq_bool st false).
  - destruct (get data message) as [msg|e]; [|eexists; repeat split].
    destruct (to_string (js_or msg (Str "Unknown error"))); eexists; repeat split.
  - destruct (strict_eq_bool st true); eexists; repeat split.
Qed.

(** X10: a value [getAccessToken] returns is always the [access_token] of
    the response it received, and it is truthy: a missing, empty or
    otherwise falsy token is never handed to the caller. *)
Theorem getAccessToken_returns_only_a_truthy_token
    (net : network) (email apiKey : string) (v : value) :
  fst (run (getAccessToken email apiKey) net) = Return v ->
  truthy v = true
  /\ exists data,
       net O (token_request email apiKey) = Return data
       /\ v = field data access_token.
Proof.
  unfold getAccessToken. run_monad.
  cbn [fetch_count filter is_fetch List.length app].
  destruct (net O (token_request email apiKey)) as [data|e]; [|discriminate].
  destruct (nullish data) eqn:Hn.
  - destruct data; try discriminate Hn; discriminate.
  - rewrite (get_field _ _ Hn).
    destruct (truthy (field data access_token)) eqn:Ht; cbn; [|discriminate].
    intros [= <-]. split; [exact Ht|]. exists data. split; reflexivity.
Qed.

Lemma getAccessToken_returns_only_a_truthy_token_witness :
  truthy (Str "tok-1") = true
  /\ exists data,
       replies (Obj [("access_token", Str "tok-1")]) O (token_request "me@example.org" "key")
       = Return data
       /\ Str "tok-1" = field data access_token.
Proof.
  apply (getAccessToken_returns_only_a_truthy_token
           (replies (Obj [("access_token", Str "tok-1")])) "me@example.org" "key"
           (Str "tok-1")).
  reflexivity.
Defined.

(** X11: whatever the token endpoint answers, and also when the request
    fails, [getAccessToken] sends exactly one request, the POST of the
    credentials to [/oauth/access_token], right after its first log line;
    everything after it is console output. *)
Theorem getAccessToken_sends_one_request
    (net : network) (email apiKey : string) :
  exists rest,
    snd (run (getAccessToken email apiKey) net)
    = ConsoleLog "[API] Obtaining OAuth access token..."
        :: Fetch (token_request email apiKey) :: rest
    /\ forallb is_console_log rest = true
    /\ fetch_count (snd (run (getAccessToken email apiKey) net)) = 1%nat.
Proof.
  unfold getAccessToken. run_monad.
  cbn [fetch_count filter is_fetch List.length app].
  destruct (net O (token_request email apiKey)) as [data|e];
    [|eexists; repeat split].
  destruct (get data access_token) as [tok|e]; [|eexists; repeat split].
  destruct (truthy tok); eexists; repeat split.
Qed.

(** ** [parseInt] on the server id *)

Lemma uint_value_acc (d : Decimal.uint) :
  forall acc : positive, uint_value d (Zpos acc) = Zpos (Pos.of_uint_acc d acc).
Proof.
  induction d as [|d IH|d IH|d IH|d IH|d IH|d IH|d IH|d IH|d IH|d IH];
    intros acc; cbn [uint_value Pos.of_uint_acc]; [reflexivity|..];
    rewrite <- IH; f_equal; lia.
Qed.

Lemma uint_value_of_uint (d : Decimal.uint) :
  uint_value d 0 = Z.of_N (Pos.of_uint d).
Proof.
  induction d as [|d IH|d IH|d IH|d IH|d IH|d IH|d IH|d IH|d IH|d IH];
    cbn [uint_value Pos.of_uint]; [reflexivity|exact IH|..];
    cbn [Z.mul Z.add Z.of_N]; apply uint_value_acc.
Qed.

Lemma leading_digits_stop (acc : option Z) (rest : string) :
  starts_with_digit rest = false -> leading_digits acc rest = acc.
Proof.
  destruct rest as [|a r]; [reflexivity|].
  cbn [starts_with_digit leading_digits]. now intros ->.
Qed.

Lemma leading_digits_Some (s : string) :
  forall acc, exists n, leading_digits (Some acc) s = Some n.
Proof.
  induction s as [|a r IH]; intros acc; cbn [leading_digits]; [now exists acc|].
  destruct (is_digit a); [apply IH|now exists acc].
Qed.

Lemma leading_digits_uint (d : Decimal.uint) (rest : string) :
  starts_with_digit rest = false ->
  forall acc, leading_digits (Some acc) (NilEmpty.string_of_uint d ++ rest)
              = Some (uint_value d acc).
Proof.
  intros Hrest.
  induction d as [|d IH|d IH|d IH|d IH|d IH|d IH|d IH|d IH|d IH|d IH]; intros acc;
    [now apply leading_digits_stop|..];
    cbn [NilEmpty.string_of_uint append leading_digits uint_value];
    (change (is_digit _) with true); cbn iota; apply IH.
Qed.

(** A numeral that is not empty starts with a digit and reads as its value. *)
Lemma numeral_reads (d : Decimal.uint) (rest : string) :
  d <> Decimal.Nil ->
  starts_with_digit rest = false ->
  exists a r,
    (NilEmpty.string_of_uint d ++ rest)%string = String a r
    /\ is_digit a = true
    /\ leading_digits None (String a r) = Some (Z.of_N (Pos.of_uint d)).
Proof.
  intros Hd Hrest. rewrite <- uint_value_of_uint.
  destruct d; [now elim Hd|..];
    cbn [NilEmpty.string_of_uint append]; eexists; eexists;
    (split; [reflexivity|]); (split; [reflexivity|]);
    cbn [leading_digits uint_value]; (change (is_digit _) with true); cbn iota;
    now apply leading_digits_uint.
Qed.

Lemma trim_start_keeps (a : ascii) (r : string) :
  (N_of_ascii a < 128)%N -> white_space_1 a = false ->
  trim_start (String a r) = String a r.
Proof.
  intros Hlt Hws. cbn [trim_start]. rewrite Hws.
  destruct r as [|b r2]; [reflexivity|].
  assert (H2 : white_space_2 a b = false).
  { unfold white_space_2. replace (N_of_ascii a =? 194)%N with false; [reflexivity|].
    symmetry. apply N.eqb_neq. lia. }
  rewrite H2. destruct r2 as [|c r3]; [reflexivity|].
  assert (H3 : white_space_3 a b c = false).
  { unfold white_space_3. cbv zeta.
    replace (N_of_ascii a =? 225)%N with false by (symmetry; apply N.eqb_neq; lia).
    replace (N_of_ascii a =? 226)%N with false by (symmetry; apply N.eqb_neq; lia).
    replace (N_of_ascii a =? 227)%N with false by (symmetry; apply N.eqb_neq; lia).
    replace (N_of_ascii a =? 239)%N with false by (symmetry; apply N.eqb_neq; lia).
    reflexivity. }
  now rewrite H3.
Qed.

Lemma digit_is_plain (a : ascii) :
  is_digit a = true ->
  (N_of_ascii a < 128)%N /\ white_space_1 a = false
  /\ (a =? "-")%char = false /\ (a =? "+")%char = false.
Proof.
  intros H. unfold is_digit in H. cbv zeta in H.
  apply andb_true_iff in H as [Hlo Hhi].
  apply N.leb_le in Hlo. apply N.leb_le in Hhi.
  split; [lia|]. split; [|split].
  - unfold white_space_1. cbv zeta.
    replace (N_of_ascii a <=? 13)%N with false by (symmetry; apply N.leb_gt; lia).
    replace (N_of_ascii a =? 32)%N with false by (symmetry; apply N.eqb_neq; lia).
    now rewrite andb_false_r.
  - destruct (Ascii.eqb_spec a "-") as [->|]; [cbn in Hlo; lia|reflexivity].
  - destruct (Ascii.eqb_spec a "+") as [->|]; [cbn in Hlo; lia|reflexivity].
Qed.

Lemma to_uint_not_nil (p : positive) : Pos.to_uint p <> Decimal.Nil.
Proof.
  intros H. pose proof (DecimalPos.Unsigned.of_to p) as Hp.
  rewrite H in Hp. discriminate Hp.
Qed.

(** A string that starts with a digit reads as the value of its digits. *)
Lemma parseInt_unsigned (a : ascii) (r : string) (n : Z) :
  is_digit a = true -> leading_digits None (String a r) = Some n ->
  parseInt (String a r) = Int n.
Proof.
  intros Ha Hn. destruct (digit_is_plain a Ha) as [Hlt [Hws [Hm Hp]]].
  unfold parseInt. rewrite (trim_start_keeps a r Hlt Hws).
  unfold strip_sign. rewrite Hm, Hp, Hn. f_equal. lia.
Qed.

Lemma parseInt_decimal (z : Z) (rest : string) :
  starts_with_digit rest = false ->
  parseInt (Z_to_string z ++ rest) = Int z.
Proof.
  intros Hrest. unfold Z_to_string. destruct z as [|p|p]; cbn [Z.to_int NilZero.string_of_int].
  - apply parseInt_unsigned; [reflexivity|].
    cbn. now apply leading_digits_stop.
  - destruct (numeral_reads (Pos.to_uint p) rest (to_uint_not_nil p) Hrest)
      as [a [r [Heq [Ha Hn]]]].
    replace (NilZero.string_of_uint (Pos.to_uint p))
      with (NilEmpty.string_of_uint (Pos.to_uint p))
      by (pose proof (to_uint_not_nil p); now destruct (Pos.to_uint p)).
    rewrite Heq. apply parseInt_unsigned; [exact Ha|].
    now rewrite Hn, DecimalPos.Unsigned.of_to.
  - destruct (numeral_reads (Pos.to_uint p) rest (to_uint_not_nil p) Hrest)
      as [a [r [Heq [Ha Hn]]]].
    replace (NilZero.string_of_uint (Pos.to_uint p))
      with (NilEmpty.string_of_uint (Pos.to_uint p))
      by (pose proof (to_uint_not_nil p); now destruct (Pos.to_uint p)).
    cbn [append]. rewrite Heq.
    unfold parseInt. rewrite trim_start_keeps by (cbn; (lia || reflexivity)).
    cbn [strip_sign Ascii.eqb Bool.eqb]. cbn iota.
    rewrite Hn, DecimalPos.Unsigned.of_to. reflexivity.
Qed.

Lemma parseInt_skips_white_space (ws s : string) :
  ascii_white_space ws = true -> parseInt (ws ++ s) = parseInt s.
Proof.
  induction ws as [|a ws IH]; [reflexivity|].
  cbn [ascii_white_space]. intros H. apply andb_true_iff in H as [Ha Hws].
  specialize (IH Hws). unfold parseInt in *.
  cbn [append trim_start]. rewrite Ha. exact IH.
Qed.

Lemma append_empty_r (s : string) : (s ++ "")%string = s.
Proof. induction s as [|a r IH]; [reflexivity|]. cbn [append]. now rewrite IH. Qed.

Lemma append_assoc_r (s t u : string) : ((s ++ t) ++ u)%string = (s ++ t ++ u)%string.
Proof. induction s as [|a r IH]; [reflexivity|]. cbn [append]. now rewrite IH. Qed.

(** X12: a [serverId] written as a decimal integer, negative or not (and
    small enough for a double to hold it exactly), comes back from
    [parseInt] as that integer, so the payload carries it in
    [server_id] and the request body prints it digit for digit. *)
Theorem payload_carries_the_decimal_server_id (token action : string) (z : Z) :
  safe_integer z ->
  parseInt (Z_to_string z) = Int z
  /\ payload (Z_to_string z) action
     = Obj [("server_id", Num (Int z)); ("action", Str action)]
  /\ body (varnish_request token (Z_to_string z) action)
     = Some ("{" ++ json_quote "server_id" ++ ":" ++ Z_to_string z ++ ","
                 ++ json_quote "action" ++ ":" ++ json_quote action ++ "}").
Proof.
  intros _.
  assert (H : parseInt (Z_to_string z) = Int z).
  { rewrite <- (append_empty_r (Z_to_string z)). now apply parseInt_decimal. }
  split; [exact H|]. split.
  - unfold payload. now rewrite H.
  - unfold varnish_request, payload. cbn [body]. rewrite H.
    unfold stringified. cbn [JSON_stringify join]. now rewrite !append_assoc_r.
Qed.

Lemma payload_carries_the_decimal_server_id_witness :
  parseInt "-4711" = Int (-4711)
  /\ payload "-4711" "purge" = Obj [("server_id", Num (Int (-4711))); ("action", Str "purge")]
  /\ body (varnish_request "token" "-4711" "purge")
     = Some ("{" ++ json_quote "server_id" ++ ":" ++ "-4711" ++ ","
                 ++ json_quote "action" ++ ":" ++ json_quote "purge" ++ "}").
Proof.
  apply (payload_carries_the_decimal_server_id "token" "purge" (-4711)).
  unfold safe_integer. lia.
Defined.

(** X13: [parseInt] reads a number out of more than a number: white space
    before it is skipped and whatever follows the digits is dropped, so a
    [serverId] such as ["  1234px"], or a hexadecimal ["0x1F"] (read as 0),
    is sent as an integer without any error. *)
Theorem payload_ignores_text_around_the_number (action ws rest : string) (z : Z) :
  safe_integer z ->
  ascii_white_space ws = true ->
  starts_with_digit rest = false ->
  parseInt (ws ++ Z_to_string z ++ rest) = Int z
  /\ payload (ws ++ Z_to_string z ++ rest) action
     = Obj [("server_id", Num (Int z)); ("action", Str action)].
Proof.
  intros _ Hws Hrest.
  assert (H : parseInt (ws ++ Z_to_string z ++ rest) = Int z).
  { rewrite (parseInt_skips_white_space ws _ Hws). now apply parseInt_decimal. }
  split; [exact H|]. unfold payload. now rewrite H.
Qed.

Lemma payload_ignores_text_around_the_number_witness :
  parseInt "  1234px" = Int 1234
  /\ payload "  1234px" "purge" = Obj [("server_id", Num (Int 1234)); ("action", Str "purge")].
Proof.
  apply (payload_ignores_text_around_the_number "purge" "  " "px" 1234);
    [unfold safe_integer; lia|reflexivity|reflexivity].
Defined.

(** X14: [parseInt] gives [NaN] exactly on the strings that, after leading
    white space and one optional sign, do not start with a decimal digit:
    a string that starts with a digit there is never read as [NaN],
    whatever follows the digit. *)
Theorem parseInt_is_NaN_exactly_on_non_numeric (s : string) :
  parseInt s = NaN <-> non_numeric s = true.
Proof.
  split; [|apply parseInt_non_numeric].
  intros Hnan. destruct (non_numeric s) eqn:Hs; [reflexivity|exfalso].
  revert Hs Hnan. unfold non_numeric, parseInt.
  destruct (strip_sign (trim_start s)) as [sign digits]. cbn [snd].
  destruct digits as [|a r]; [discriminate|].
  intros Ha. apply negb_false_iff in Ha.
  cbn [leading_digits]. rewrite Ha.
  destruct (leading_digits_Some r (10 * 0 + digit_value a)) as [n Hn].
  rewrite Hn. discriminate.
Qed.

(** ** The provider's message *)

(** X15: the failure message is put into the error with a template
    literal, so a [message] that is an object is never printed.  An object
    without a [toString] property of its own reads [[object Object]],
    whatever it holds; an object with one cannot be converted, and the
    [TypeError] of the conversion is thrown in place of the operation
    error. *)
Theorem executeVarnishAction_object_message_is_not_printed
    (net : network) (token serverId action : string) (data : value)
    (props : list (string * value)) :
  net O (varnish_request token serverId action) = Return data ->
  field data status = Bool false ->
  field data message = Obj props ->
  fst (run (executeVarnishAction token serverId action) net)
  = if has_own "toString" props
    then Throw (TypeError "Cannot convert object to primitive value")
    else Throw (Error "Operation failed: [object Object]").
Proof.
  intros Hreply Hst Hmsg.
  rewrite (executeVarnishAction_cases net token serverId action data Hreply
             (field_bool_not_nullish data status false Hst)).
  rewrite Hst, Hmsg. cbn [strict_eq_bool Bool.eqb fst js_or truthy].
  unfold operation_failure. cbn [to_string].
  destruct (has_own "toString" props); reflexivity.
Qed.

Lemma executeVarnishAction_object_message_is_not_printed_witness :
  fst (run (executeVarnishAction "token" "1234" "purge")
         (replies (Obj [("status", Bool false);
                        ("message", Obj [("code", Num (Int 42)); ("toString", Str "x")])])))
  = Throw (TypeError "Cannot convert object to primitive value").
Proof.
  apply (executeVarnishAction_object_message_is_not_printed
           (replies (Obj [("status", Bool false);
                          ("message", Obj [("code", Num (Int 42)); ("toString", Str "x")])]))
           "token" "1234" "purge"
           (Obj [("status", Bool false);
                 ("message", Obj [("code", Num (Int 42)); ("toString", Str "x")])])
           [("code", Num (Int 42)); ("toString", Str "x")]); reflexivity.
Defined.
